(** * SRMIST university chatbot: session gate, formatter, streaming, sources

    A shallow embedding of the session/quota logic of [api.py] and [UI.py],
    of the answer formatter, source formatter and streaming loop of
    [chatbot.py], of the retrying stream of [llm_config.py] and of the e-mail
    check of [main.py], followed by the properties proved about them.

    Conventions.  A Python [str] is a [string] whose characters are code
    points below 256.  The counters of a session only ever start at 0 and are
    incremented or reset to a constant, so they are natural numbers.  A Python
    dictionary keyed by session id is a [gmap string _]. *)

From Stdlib Require Import Ascii String List Arith Bool Lia DecimalString.
From Stdlib Require Import Permutation Sorted.
From stdpp Require Import gmap strings.

Import ListNotations.
Local Open Scope stdpp_scope.

(* ===================================================================== *)
(** * Text: the [str] operations used by the program *)
(* ===================================================================== *)

Module Text.

Definition code (c : ascii) : nat := nat_of_ascii c.

(** [str.isspace] on one character: tab .. carriage return, the four
    separators 28 .. 31, the blank, NEL and the no-break space. *)
Definition is_space (c : ascii) : bool :=
  let n := code c in
  ((9 <=? n) && (n <=? 13)) || ((28 <=? n) && (n <=? 32))
  || (n =? 133) || (n =? 160).

Fixpoint lstrip (s : string) : string :=
  match s with
  | EmptyString => EmptyString
  | String c s' => if is_space c then lstrip s' else s
  end.

Fixpoint rstrip (s : string) : string :=
  match s with
  | EmptyString => EmptyString
  | String c s' =>
      match rstrip s' with
      | EmptyString => if is_space c then EmptyString else String c EmptyString
      | r => String c r
      end
  end.

(** [s.strip()] *)
Definition strip (s : string) : string := rstrip (lstrip s).

(** Python truthiness of a string and of an optional string. *)
Definition nonempty (s : string) : bool :=
  match s with EmptyString => false | _ => true end.

Definition truthy (o : option string) : bool :=
  match o with Some s => nonempty s | None => false end.

(** [c.lower()]: the capital letters A .. Z and, above 127, the capitals
    192 .. 222 (but the multiplication sign 215) lie 32 below their small
    letters. *)
Definition lower_char (c : ascii) : ascii :=
  let n := code c in
  if ((65 <=? n) && (n <=? 90))
     || ((192 <=? n) && (n <=? 222) && negb (n =? 215))
  then ascii_of_nat (n + 32) else c.

(** [c.isdigit()]: the digits 0 .. 9 and the superscripts two, three, one. *)
Definition isdigit (c : ascii) : bool :=
  let n := code c in
  ((48 <=? n) && (n <=? 57)) || (n =? 178) || (n =? 179) || (n =? 185).

(** [len(s.split())]: the number of maximal runs without white space;
    [in_word] tells whether the previous character belongs to a run. *)
Fixpoint count_words (in_word : bool) (s : string) : nat :=
  match s with
  | EmptyString => 0
  | String c s' =>
      if is_space c then count_words false s'
      else (if in_word then 0 else 1) + count_words true s'
  end.

Definition word_count (s : string) : nat := count_words false s.

(** [s.lower()] *)
Fixpoint lower (s : string) : string :=
  match s with
  | EmptyString => EmptyString
  | String c s' => String (lower_char c) (lower s')
  end.

(** [s.startswith(p)] *)
Definition startswith (p s : string) : bool := String.prefix p s.

(** [s[n:]] *)
Fixpoint drop (n : nat) (s : string) : string :=
  match n, s with
  | 0, _ => s
  | S k, EmptyString => EmptyString
  | S k, String _ s' => drop k s'
  end.

(** [s[:n]] *)
Fixpoint take (n : nat) (s : string) : string :=
  match n, s with
  | 0, _ => EmptyString
  | S k, EmptyString => EmptyString
  | S k, String c s' => String c (take k s')
  end.

(** [s.find(p)]: the offset of the first occurrence of [p] in [s]. *)
Fixpoint find (p s : string) : option nat :=
  if startswith p s then Some 0
  else match s with
       | EmptyString => None
       | String _ s' => option_map S (find p s')
       end.

(** [p in s] *)
Definition contains (p s : string) : bool :=
  match find p s with Some _ => true | None => false end.

(** [sep.join(l)] *)
Fixpoint join (sep : string) (l : list string) : string :=
  match l with
  | [] => EmptyString
  | [x] => x
  | x :: l' => x +:+ sep +:+ join sep l'
  end.

(** Replacement of every non-overlapping occurrence, scanning from the
    left: [span s] gives, when a match starts at the head of [s], the
    length of the match (at least 1) and its replacement.  [skip] counts
    the characters of the current match still to be passed over. *)
Fixpoint replace_spans (span : string -> option (nat * string))
         (skip : nat) (s : string) : string :=
  match s with
  | EmptyString => EmptyString
  | String c s' =>
      match skip with
      | S k => replace_spans span k s'
      | 0 =>
          match span s with
          | Some (n, r) => r +:+ replace_spans span (pred n) s'
          | None => String c (replace_spans span 0 s')
          end
      end
  end.

(** [s.replace(p, r)] for a non-empty [p] *)
Definition replace (p r s : string) : string :=
  replace_spans
    (fun t => if startswith p t then Some (String.length p, r) else None)
    0 s.

Definition newline : string := String (ascii_of_nat 10) EmptyString.

End Text.

(* ===================================================================== *)
(** * Regex: the fragment of [re] needed by [validate_email] *)
(* ===================================================================== *)

Module Regex.

Inductive re : Type :=
| Void
| Eps
| Class (p : ascii -> bool)
| Cat (a b : re)
| Alt (a b : re)
| Star (a : re).

Fixpoint nullable (r : re) : bool :=
  match r with
  | Void => false
  | Eps => true
  | Class _ => false
  | Cat a b => nullable a && nullable b
  | Alt a b => nullable a || nullable b
  | Star _ => true
  end.

(** Brzozowski derivative: the words [w] such that [c w] is in [r]. *)
Fixpoint deriv (c : ascii) (r : re) : re :=
  match r with
  | Void => Void
  | Eps => Void
  | Class p => if p c then Eps else Void
  | Cat a b =>
      if nullable a then Alt (Cat (deriv c a) b) (deriv c b)
      else Cat (deriv c a) b
  | Alt a b => Alt (deriv c a) (deriv c b)
  | Star a => Cat (deriv c a) (Star a)
  end.

(** The whole of [s] is a word of [r]. *)
Fixpoint fullmatch (r : re) (s : string) : bool :=
  match s with
  | EmptyString => nullable r
  | String c s' => fullmatch (deriv c r) s'
  end.

Definition plus (r : re) : re := Cat r (Star r).
Definition opt (r : re) : re := Alt r Eps.
Definition chr (n : nat) : re := Class (fun c => Text.code c =? n).

Definition in_range (lo hi : nat) (c : ascii) : bool :=
  (lo <=? Text.code c) && (Text.code c <=? hi).

Definition is_letter (c : ascii) : bool := in_range 65 90 c || in_range 97 122 c.
Definition is_digit (c : ascii) : bool := in_range 48 57 c.
Definition one_of (l : list nat) (c : ascii) : bool :=
  existsb (fun n => Text.code c =? n) l.

(** [re.match(p + "$", s)] for a pattern [p] without anchors: [$] holds at
    the end of [s] and just before a newline that ends [s]. *)
Definition match_to_end (p : re) (s : string) : bool :=
  fullmatch (Cat p (opt (chr 10))) s.

End Regex.

(* ===================================================================== *)
(** * Auth: [AuthenticationManager] of main.py *)
(* ===================================================================== *)

Module Auth.
Import Regex.

(** [[a-zA-Z0-9._%+-]]: the characters . _ % + - have codes 46 95 37 43 45 *)
Definition local_char (c : ascii) : bool :=
  is_letter c || is_digit c || one_of [46; 95; 37; 43; 45] c.

(** [[a-zA-Z0-9.-]] *)
Definition domain_char (c : ascii) : bool :=
  is_letter c || is_digit c || one_of [46; 45] c.

(** [[a-zA-Z0-9._%+-]+@[a-zA-Z0-9.-]+\.[a-zA-Z]{2,}] *)
Definition email_pattern : re :=
  Cat (plus (Class local_char))
    (Cat (chr 64)
       (Cat (plus (Class domain_char))
          (Cat (chr 46)
             (Cat (Class is_letter) (plus (Class is_letter)))))).

Definition validate_email (email : string) : bool :=
  match_to_end email_pattern (Text.lower email).

(** The manager's only state relevant here is whether the database call
    goes through ([db_ok]) or raises. *)
Record manager : Type := { db_ok : bool }.

Record result : Type := { success : bool; message : string }.

Definition save_email_only (am : manager) (email session_id : string) : result :=
  if negb (validate_email email) then
    {| success := false; message := "Invalid email format" |}
  else if db_ok am then
    {| success := true; message := "Email saved successfully" |}
  else
    {| success := false; message := "Failed to save email" |}.

End Auth.

(* ===================================================================== *)
(** * Api: the session logic of api.py *)
(* ===================================================================== *)

Module Api.

Definition FREE_QUERY_LIMIT : nat := 2.

Record session : Type := {
  query_count : nat;
  email_provided : bool;
  user_email : option string;
  skip_count : nat;
  created_at : string
}.

Definition new_session (now : string) : session :=
  {| query_count := 0; email_provided := false; user_email := None;
     skip_count := 0; created_at := now |}.

Definition set_query_count (n : nat) (s : session) : session :=
  {| query_count := n; email_provided := email_provided s;
     user_email := user_email s; skip_count := skip_count s;
     created_at := created_at s |}.

Definition set_skip_count (n : nat) (s : session) : session :=
  {| query_count := query_count s; email_provided := email_provided s;
     user_email := user_email s; skip_count := n;
     created_at := created_at s |}.

(** [session["email_provided"] = True; session["user_email"] = email] *)
Definition set_email (email : option string) (s : session) : session :=
  {| query_count := query_count s; email_provided := true;
     user_email := email; skip_count := skip_count s;
     created_at := created_at s |}.

(** The module-level dictionary [sessions]. *)
Abbreviation store := (gmap string session).

Definition get_or_create_session (now session_id : string) (st : store)
  : store * session :=
  match st !! session_id with
  | Some s => (st, s)
  | None => (<[session_id := new_session now]> st, new_session now)
  end.

(** ** POST /api/chat *)

Inductive chat_response : Type :=
| RequireEmail (skip : nat)   (* answer empty, require_email = True *)
| Answered.                   (* the query was processed *)

Definition chat (email : option string) (s : session) : session * chat_response :=
  if negb (email_provided s) && negb (Text.truthy email)
     && (FREE_QUERY_LIMIT <=? query_count s)
  then (s, RequireEmail (skip_count s))
  else
    let s1 := if Text.truthy email && negb (email_provided s)
              then set_email email s else s in
    let s2 := if negb (email_provided s1)
              then set_query_count (query_count s1 + 1) s1 else s1 in
    let s3 := if Text.truthy email && negb (email_provided s2)
              then set_email email s2 else s2 in
    (s3, Answered).

(** ** POST /api/chat/stream *)

Inductive gate : Type :=
| Allow
| Stop (skip_allowed : bool) (skip : nat).   (* the single [stop_event] *)

(** The checks made before [generate] is built. *)
Definition stream_gate (email : option string) (s : session) : session * gate :=
  let qc := query_count s in
  let skip_used := skip_count s in
  if email_provided s then (s, Allow)
  else if qc <? FREE_QUERY_LIMIT then (s, Allow)
  else if qc =? FREE_QUERY_LIMIT then
    let skip_allowed := skip_used =? 0 in
    if negb (Text.truthy email) then
      if skip_used =? 1 then (s, Allow)
      else (s, Stop skip_allowed skip_used)
    else (set_skip_count 0 (set_email email s), Allow)
  else
    if negb (Text.truthy email) then (s, Stop false skip_used)
    else (set_skip_count 0 (set_email email s), Allow).

(** The effect of [generate] on the session once the stream has been
    consumed to its end: [session["query_count"] += 1]. *)
Definition generate (s : session) : session :=
  set_query_count (query_count s + 1) s.

Definition chat_stream (email : option string) (s : session) : session * gate :=
  let '(s1, g) := stream_gate email s in
  match g with
  | Allow => (generate s1, Allow)
  | Stop a k => (s1, Stop a k)
  end.

(** [request.session_id or f"session_{timestamp}"] *)
Definition request_session_id (sent : option string) (fresh : string) : string :=
  match sent with
  | Some i => if Text.nonempty i then i else fresh
  | None => fresh
  end.

(** The two chat endpoints on the store: the session is looked up or
    created, and what the handler does to it is done in place. *)
Definition post_chat (now fresh : string) (sent email : option string)
           (st : store) : store * (string * chat_response) :=
  let session_id := request_session_id sent fresh in
  let '(st1, s) := get_or_create_session now session_id st in
  let '(s', r) := chat email s in
  (<[session_id := s']> st1, (session_id, r)).

Definition post_chat_stream (now fresh : string) (sent email : option string)
           (st : store) : store * (string * gate) :=
  let session_id := request_session_id sent fresh in
  let '(st1, s) := get_or_create_session now session_id st in
  let '(s', g) := chat_stream email s in
  (<[session_id := s']> st1, (session_id, g)).

(** ** POST /api/email/submit, /api/email/skip, /api/session/clear *)

Inductive response : Type :=
| HttpError (status : nat) (detail : string)
| EmailResponse (success : bool) (message : string)
| Unprocessable.   (* status 422: the request model refused the body *)

(** [EmailRequest.email : EmailStr].  Before the handler runs, pydantic
    checks the address of the request and hands its normalised form to the
    handler; a refused address ends the request with status 422.  The check
    is made by a library outside the program, so the endpoint takes it as
    an argument: [None] for a refused address, otherwise the normalised
    address. *)
Definition email_str : Type := string -> option string.

(** The body of [submit_email] once the session has been found: the session
    is updated first, the address is saved (and checked) afterwards. *)
Definition submit_session (auth : option Auth.manager)
           (session_id email : string) (s : session) : session * response :=
  let s' := set_skip_count 0 (set_email (Some email) s) in
  match auth with
  | Some am =>
      let result := Auth.save_email_only am email session_id in
      if negb (Auth.success result)
      then (s', HttpError 400 (Auth.message result))
      else (s', EmailResponse true "Email saved successfully")
  | None => (s', EmailResponse true "Email saved successfully")
  end.

(** The endpoint: the request model first, then the handler on the
    normalised address. *)
Definition submit_email (check : email_str) (auth : option Auth.manager)
           (session_id raw_email : string) (st : store) : store * response :=
  match check raw_email with
  | None => (st, Unprocessable)
  | Some email =>
      if negb (Text.nonempty session_id)
      then (st, HttpError 400 "Invalid session")
      else
        match st !! session_id with
        | None => (st, HttpError 400 "Invalid session")
        | Some s =>
            let '(s', r) := submit_session auth session_id email s in
            (<[session_id := s']> st, r)
        end
  end.

(** The body of [skip_email] once the session has been found. *)
Definition skip_session (s : session) : session * response :=
  if negb (query_count s =? FREE_QUERY_LIMIT) then
    (s, EmailResponse false "Skip not allowed at this stage.")
  else if 1 <=? skip_count s then
    (s, EmailResponse false "Skip already used.")
  else
    (set_skip_count 1 s,
     EmailResponse true
       "Skip accepted. Please wait while we process your previous question.").

Definition skip_email (session_id : string) (st : store) : store * response :=
  if negb (Text.nonempty session_id) then (st, HttpError 400 "Invalid session")
  else
    match st !! session_id with
    | None => (st, HttpError 400 "Invalid session")
    | Some s =>
        let '(s', r) := skip_session s in
        match r with
        | EmailResponse true _ => (<[session_id := s']> st, r)
        | _ => (st, r)
        end
    end.

Record clear_result : Type := { success : bool; message : string }.

Definition clear_session (session_id : string) (st : store)
  : store * clear_result :=
  let st' := match st !! session_id with
             | Some _ => delete session_id st
             | None => st
             end in
  (st', {| success := true; message := "Session cleared" |}).

(** ** Request sequences on one session *)

(** [ReqSubmit auth email] is an e-mail submission that has passed the
    request model, [email] being the address handed to the handler. *)
Inductive request : Type :=
| ReqChat (email : option string)
| ReqStream (email : option string)
| ReqSkip
| ReqSubmit (auth : option Auth.manager) (email : string).

Definition accepted (r : response) : bool :=
  match r with EmailResponse true _ => true | _ => false end.

(** One request of session [sid] handled to completion: the new session
    and whether the request was an accepted skip. *)
Definition step (sid : string) (r : request) (s : session) : session * bool :=
  match r with
  | ReqChat e => (fst (chat e s), false)
  | ReqStream e => (fst (chat_stream e s), false)
  | ReqSkip => let '(s', a) := skip_session s in (s', accepted a)
  | ReqSubmit auth e => (fst (submit_session auth sid e s), false)
  end.

(** A run of requests, threading the session and the number of skips
    accepted so far. *)
Fixpoint run (sid : string) (rs : list request) (s : session) (skips : nat)
  : session * nat :=
  match rs with
  | [] => (s, skips)
  | r :: rs' =>
      let '(s', a) := step sid r s in
      run sid rs' s' (if a then S skips else skips)
  end.

End Api.

(* ===================================================================== *)
(** * Ui: the session logic of UI.py *)
(* ===================================================================== *)

Module Ui.

Definition FREE_QUERY_LIMIT : nat := 2.

(** The dictionary [current_session]. *)
Record session : Type := {
  query_count : nat;
  email_provided : bool;
  user_email : option string;
  session_id : option string;
  skip_count : nat;
  pending_message : option string
}.

Definition current_session : session :=
  {| query_count := 0; email_provided := false; user_email := None;
     session_id := None; skip_count := 0; pending_message := None |}.

Definition set_query_count (n : nat) (s : session) : session :=
  {| query_count := n; email_provided := email_provided s;
     user_email := user_email s; session_id := session_id s;
     skip_count := skip_count s; pending_message := pending_message s |}.

Definition set_email_provided (b : bool) (s : session) : session :=
  {| query_count := query_count s; email_provided := b;
     user_email := user_email s; session_id := session_id s;
     skip_count := skip_count s; pending_message := pending_message s |}.

Definition set_user_email (e : option string) (s : session) : session :=
  {| query_count := query_count s; email_provided := email_provided s;
     user_email := e; session_id := session_id s;
     skip_count := skip_count s; pending_message := pending_message s |}.

Definition set_session_id (i : option string) (s : session) : session :=
  {| query_count := query_count s; email_provided := email_provided s;
     user_email := user_email s; session_id := i;
     skip_count := skip_count s; pending_message := pending_message s |}.

Definition set_skip_count (n : nat) (s : session) : session :=
  {| query_count := query_count s; email_provided := email_provided s;
     user_email := user_email s; session_id := session_id s;
     skip_count := n; pending_message := pending_message s |}.

Definition set_pending_message (m : option string) (s : session) : session :=
  {| query_count := query_count s; email_provided := email_provided s;
     user_email := user_email s; session_id := session_id s;
     skip_count := skip_count s; pending_message := m |}.

(** [if not current_session.get("session_id"): ... = f"session_{now}"] *)
Definition ensure_session_id (fresh : string) (s : session) : session :=
  if Text.truthy (session_id s) then s else set_session_id (Some fresh) s.

Definition session_id_of (s : session) : string :=
  match session_id s with Some i => i | None => EmptyString end.

Definition submit_email (auth : option Auth.manager) (fresh email : string)
           (s : session) : session * (string * bool) :=
  match auth with
  | None => (s, ("Email system unavailable", false))
  | Some am =>
      if negb (Text.nonempty email) || negb (Text.nonempty (Text.strip email))
      then (s, ("Please enter a valid email address", false))
      else
        let s1 := ensure_session_id fresh s in
        let result := Auth.save_email_only am email (session_id_of s1) in
        if Auth.success result
        then (set_user_email (Some email) (set_email_provided true s1), (" ", true))
        else (s1, (" " +:+ Auth.message result, false))
  end.

(** What a handler puts on the screen. *)
Inductive action : Type :=
| RunQuery (message : string) (as_pending : bool)
| EmailCard (message : string)
| EmailError (status : string)
| NoPending
| SkipRefused
| Unchanged.

Definition process_normal_message (fresh message : string) (s : session)
  : session * action :=
  let s0 := ensure_session_id fresh s in
  if email_provided s0 then (s0, RunQuery message false)
  else
    let s1 := set_query_count (query_count s0 + 1) s0 in
    if query_count s1 <=? FREE_QUERY_LIMIT then (s1, RunQuery message false)
    else (set_pending_message (Some message) s1, EmailCard message).

Definition handle_email_submission (auth : option Auth.manager)
           (fresh message : string) (s : session) : session * action :=
  let email := Text.strip (Text.replace "EMAIL_SUBMIT:" "" message) in
  let '(s1, (status_msg, success)) := submit_email auth fresh email s in
  if success then
    let pending := pending_message s1 in
    let s2 := set_skip_count 0
                (set_email_provided true (set_pending_message None s1)) in
    match pending with
    | Some p => if Text.nonempty p then (s2, RunQuery p true) else (s2, Unchanged)
    | None => (s2, Unchanged)
    end
  else (s1, EmailError status_msg).

Definition handle_skip_email (s : session) : session * action :=
  match pending_message s with
  | None => (s, NoPending)
  | Some pending =>
      if negb (Text.nonempty pending) then (s, NoPending)
      else if skip_count s =? 0 then
        (set_pending_message None (set_skip_count 1 s), RunQuery pending true)
      else (s, SkipRefused)
  end.

Definition chat_handler (auth : option Auth.manager) (fresh message : string)
           (s : session) : session * action :=
  if negb (Text.nonempty message) || negb (Text.nonempty (Text.strip message))
  then (s, Unchanged)
  else if Text.startswith "EMAIL_SUBMIT:" message
  then handle_email_submission auth fresh message s
  else if String.eqb message "SKIP_EMAIL" then handle_skip_email s
  else process_normal_message fresh message s.

(** A run of chat messages, threading the session and the number of skips
    accepted so far. *)
Definition skip_accepted (message : string) (a : action) : bool :=
  String.eqb message "SKIP_EMAIL"
  && match a with RunQuery _ _ => true | _ => false end.

Fixpoint run (auth : option Auth.manager) (fresh : string)
         (ms : list string) (s : session) (skips : nat) : session * nat :=
  match ms with
  | [] => (s, skips)
  | m :: ms' =>
      let '(s', a) := chat_handler auth fresh m s in
      run auth fresh ms' s' (if skip_accepted m a then S skips else skips)
  end.

End Ui.

(* ===================================================================== *)
(** * Formatter: [_parse_and_format_response] of chatbot.py *)
(* ===================================================================== *)

Module Formatter.
Import Text.

Definition MARKDOWN_TABLE : string := "<<MARKDOWN_TABLE>>".
Definition END_MARKDOWN_TABLE : string := "<<END_MARKDOWN_TABLE>>".
Definition TABLE_JSON : string := "<<TABLE_JSON>>".
Definition END_TABLE_JSON : string := "<<END_TABLE_JSON>>".

(** Length of the match of [opening.*?closing] (DOTALL) at the head of [s]:
    the opening tag, then everything up to the first closing tag. *)
Definition lazy_span (opening closing s : string) : option nat :=
  if startswith opening s then
    match find closing (drop (String.length opening) s) with
    | Some k => Some (String.length opening + k + String.length closing)
    | None => None
    end
  else None.

(** [re.search(opening + "(.*?)" + closing, s, re.DOTALL).group(1)]: the
    leftmost opening tag that is followed by a closing tag is the first
    opening tag of [s]. *)
Definition search_group (opening closing s : string) : option string :=
  match find opening s with
  | None => None
  | Some i =>
      let rest := drop (i + String.length opening) s in
      match find closing rest with
      | Some k => Some (take k rest)
      | None => None
      end
  end.

(** [re.sub(opening + ".*?" + closing, f, s, flags=re.DOTALL)], where [f]
    maps the matched text to its replacement. *)
Definition sub_lazy (opening closing : string) (f : string -> string)
           (s : string) : string :=
  replace_spans
    (fun t => match lazy_span opening closing t with
              | Some n => Some (n, f (take n t))
              | None => None
              end) 0 s.

(** Length of the match at the head of [s] of the generic marker pattern
    (two [<], any run of characters other than [>], two [>]): after the
    opening pair the run goes up to the first [>], which has to start the
    closing pair. *)
Definition marker_span (s : string) : option nat :=
  if startswith "<<" s then
    let rest := drop 2 s in
    match find ">" rest with
    | Some k => if startswith ">>" (drop k rest) then Some (2 + k + 2) else None
    | None => None
    end
  else None.

(** [re.sub] of the generic marker pattern by the empty string. *)
Definition strip_markers (s : string) : string :=
  replace_spans
    (fun t => match marker_span t with
              | Some n => Some (n, EmptyString)
              | None => None
              end) 0 s.

(** What [json.loads] and the table code make of the text between the JSON
    tags. *)
Inductive loaded : Type :=
| TableData (headers : list string) (rows : list (list (option string)))
    (* an object with string headers; a cell is [None] for null and
       [Some (str cell)] otherwise *)
| JSONDecodeError
| OtherError.   (* any other value: building the table raises *)

Definition render_row (row : list (option string)) : string :=
  "| " +:+ join " | " (map (fun cell => match cell with
                                        | Some c => c
                                        | None => EmptyString
                                        end) row)
  +:+ " |" +:+ newline.

Definition render_table (headers : list string)
           (rows : list (list (option string))) : string :=
  newline +:+ "| " +:+ join " | " headers +:+ " |" +:+ newline
  +:+ "|" +:+ join "|" (map (fun _ => "---") headers) +:+ "|" +:+ newline
  +:+ String.concat EmptyString (map render_row rows).

Section WithRuntime.

(** The two library services the formatter calls that are not part of the
    program: [json.loads] followed by the accessors of the table code,
    and the compilation by [re] of a replacement that holds a backslash
    ([None]: [re.error]; otherwise the replacement for a matched text). *)
Variable json_loads : string -> loaded.
Variable compile_template : string -> option (string -> string).

Definition backslash : string := String (ascii_of_nat 92) EmptyString.

(** A replacement string without backslash stands for itself. *)
Definition template (repl : string) : option (string -> string) :=
  if contains backslash repl then compile_template repl
  else Some (fun _ => repl).

(** The last block of the function: "Remove any leftover markers". *)
Definition remove_leftover_markers (raw_response : string) : string :=
  let cleaned := raw_response in
  let cleaned := replace MARKDOWN_TABLE EmptyString cleaned in
  let cleaned := replace END_MARKDOWN_TABLE EmptyString cleaned in
  let cleaned := sub_lazy TABLE_JSON END_TABLE_JSON (fun _ => EmptyString) cleaned in
  let cleaned := strip_markers cleaned in
  strip cleaned.

(** [None]: an exception leaves the function. *)
Definition parse_and_format_response (raw_response : string) : option string :=
  match search_group MARKDOWN_TABLE END_MARKDOWN_TABLE raw_response with
  | Some g =>
      let markdown_table := strip g in
      let cleaned := sub_lazy TABLE_JSON END_TABLE_JSON
                       (fun _ => EmptyString) raw_response in
      match template markdown_table with
      | Some f =>
          Some (strip (sub_lazy MARKDOWN_TABLE END_MARKDOWN_TABLE f cleaned))
      | None => None
      end
  | None =>
      match search_group TABLE_JSON END_TABLE_JSON raw_response with
      | Some g =>
          match json_loads (strip g) with
          | TableData headers rows =>
              match template (render_table headers rows) with
              | Some f =>
                  Some (strip (sub_lazy TABLE_JSON END_TABLE_JSON f raw_response))
              | None => None
              end
          | JSONDecodeError => Some (remove_leftover_markers raw_response)
          | OtherError => None
          end
      | None => Some (remove_leftover_markers raw_response)
      end
  end.

End WithRuntime.

End Formatter.

(* ===================================================================== *)
(** * Llm: [GeminiLLM.stream] of llm_config.py *)
(* ===================================================================== *)

Module Llm.
Import Text.

(** One call of [generate_content(prompt, stream=True)] and the iteration
    over its response: the texts of the chunks handed over, in order, and
    whether the iteration then ends normally or with an exception. *)
Record attempt : Type := { chunks : list string; completes : bool }.

(** The backend: what attempt number [n] on a prompt does. *)
Definition backend : Type := string -> nat -> attempt.

Definition EMPTY_PROMPT : string := "Please provide a valid question.".
Definition TROUBLE : string :=
  "I'm having trouble processing your request right now. Please try again later.".

(** The character budget of a prompt, 30000. *)
Definition PROMPT_BUDGET : nat := 300 * 100.

Definition truncate (prompt : string) : string :=
  if PROMPT_BUDGET <? String.length prompt
  then take PROMPT_BUDGET prompt +:+ "...[truncated]"
  else prompt.

(** [for attempt in range(max_retries)], from [attempt] on, with
    [remaining] iterations left; the result is the sequence of yields. *)
Fixpoint retry_loop (model : backend) (prompt : string) (max_retries : nat)
         (attempt remaining : nat) : list string :=
  match remaining with
  | 0 => []
  | S remaining' =>
      let a := model prompt attempt in
      List.filter nonempty (chunks a)
      ++ (if completes a then []
          else if attempt =? max_retries - 1 then [TROUBLE]
          else retry_loop model prompt max_retries (S attempt) remaining')
  end.

Definition stream (max_retries : nat) (model : backend) (prompt : string)
  : list string :=
  if negb (nonempty prompt) || negb (nonempty (strip prompt))
  then [EMPTY_PROMPT]
  else retry_loop model (truncate prompt) max_retries 0 max_retries.

End Llm.

(* ===================================================================== *)
(** * Chatbot: [_format_sources] and [_query_streaming] of chatbot.py *)
(* ===================================================================== *)

Module Chatbot.
Import Text.

(** A retrieved document: its text and the metadata keys the program
    reads ([None]: the key is absent). *)
Record document : Type := {
  page_content : string;
  chunk_type : option string;
  title : option string;
  url : option string;
  source : option string
}.

(** [d.get(key, default)] *)
Definition get (o : option string) (default : string) : string :=
  match o with Some v => v | None => default end.

(** [any(p in s for p in phrases)] *)
Definition any_in (phrases : list string) (s : string) : bool :=
  existsb (fun p => contains p s) phrases.

(** ** [_build_structured_context] *)

Definition TABLE_KEYS : list string :=
  ["Degree"; "Fees"; "Branch"; "Duration"; "Room Type";
   "Hostel"; "Fee"; "Annual"; "Sharing"].

Definition context_part (doc : document) (content : string) : string :=
  let chunk_type := get (chunk_type doc) EmptyString in
  if String.eqb chunk_type "table_complete" then
    newline +:+ "=== TABLE DATA START ===" +:+ newline +:+ content
    +:+ newline +:+ "=== TABLE DATA END ===" +:+ newline
  else if String.eqb chunk_type "section_h1" || String.eqb chunk_type "section_h2"
  then newline +:+ "## " +:+ content +:+ newline
  else if contains ":" content && any_in TABLE_KEYS content then
    newline +:+ "[TABLE ROW DATA]" +:+ newline +:+ content
    +:+ newline +:+ "[END TABLE ROW]" +:+ newline
  else content.

Fixpoint context_parts (seen_content : list string) (docs : list document)
  : list string :=
  match docs with
  | [] => []
  | doc :: docs' =>
      let content := strip (page_content doc) in
      if existsb (String.eqb content) seen_content
      then context_parts seen_content docs'
      else context_part doc content
           :: context_parts (content :: seen_content) docs'
  end.

Definition build_structured_context (docs : list document) : string :=
  join (newline +:+ newline) (context_parts [] docs).

(** ** [_filter_relevant_documents], [_handle_no_relevant_docs] *)

Definition filter_relevant_documents (top_k : nat) (docs : list document)
  : list document :=
  match docs with
  | [] => []
  | _ => firstn (Nat.min top_k (List.length docs)) docs
  end.

Definition handle_no_relevant_docs (question : string) : string * string :=
  if contains "event" (lower question) || contains "upcoming" (lower question)
  then
    ("I don't have current information about upcoming events in my database. "
     +:+ "Please check the university's official website or contact the student "
     +:+ "affairs office for the latest event schedule.",
     EmptyString)
  else
    ("I don't have specific information about that topic in my database. "
     +:+ "Could you please rephrase your question or ask about something more "
     +:+ "specific to the university?",
     EmptyString).

(** ** [_should_show_sources] *)

Definition uncertainty_indicators : list string :=
  ["i don't have"; "not available"; "i cannot find";
   "not enough information"; "limited information";
   "don't have current information"; "check the university";
   "please contact"; "i'm not sure"; "unable to find"].

Definition important_topics : list string :=
  ["fee"; "fees"; "cost"; "price"; "tuition";
   "admission"; "eligibility"; "requirement"; "apply";
   "deadline"; "last date"; "due date";
   "scholarship"; "financial aid";
   "hostel"; "accommodation"; "mess";
   "placement"; "internship"; "job";
   "contact"; "email"; "phone"; "address";
   "course"; "curriculum"; "syllabus"; "program";
   "exam"; "schedule"; "timetable"; "calendar"].

(** The source list begins with the rupee sign, a character outside the
    alphabet of this model, which no modelled text contains. *)
Definition specific_data_indicators : list string :=
  ["rupees"; "inr"; "rs.";
   "@"; ".com"; ".in"; ".edu";
   "phone:"; "tel:"; "contact:";
   "deadline:"; "last date:";
   "eligibility:"; "requirement:"].

Definition conversational_indicators : list string :=
  ["hi there"; "hello"; "how can i help"; "feel free to ask";
   "anything else"; "you're welcome"; "glad to help"; "happy to assist"].

(** [any(char.isdigit() for char in s)] *)
Fixpoint has_digit (s : string) : bool :=
  match s with
  | EmptyString => false
  | String c s' => isdigit c || has_digit s'
  end.

Definition should_show_sources (answer context : string)
           (docs : list document) (question : string) : bool :=
  let answer_lower := lower answer in
  let question_lower := lower question in
  if any_in uncertainty_indicators answer_lower then true
  else if any_in important_topics question_lower then true
  else if 500 <? String.length answer then true
  else if any_in specific_data_indicators answer_lower then true
  else if any_in conversational_indicators answer_lower then false
  else if String.length answer <? 100 then has_digit answer
  else if (2 <=? List.length docs) && (300 <? String.length context) then true
  else false.

(** ** [_format_sources] *)

(** [doc.metadata.get("url") or doc.metadata.get("source", "")] *)
Definition url_or_source (doc : document) : string :=
  if truthy (url doc) then get (url doc) EmptyString
  else get (source doc) EmptyString.

Definition score (doc : document) : nat :=
  let title := get (title doc) EmptyString in
  let url := url_or_source doc in
  (if contains "srmist" (lower title) || contains "srmist" (lower url)
   then 2 else 0)
  + (if (20 <? String.length title)
        && negb (String.eqb title "University Information")
     then 1 else 0)
  + (if 500 <? String.length (page_content doc) then 1 else 0).

(** [scored_docs.sort(key=lambda x: x[0], reverse=True)]: a stable sort,
    documents of equal score keep their order. *)
Fixpoint insert_by_score (d : document) (l : list document) : list document :=
  match l with
  | [] => [d]
  | e :: l' =>
      if score e <=? score d then d :: e :: l'
      else e :: insert_by_score d l'
  end.

Fixpoint sort_by_score (l : list document) : list document :=
  match l with
  | [] => []
  | d :: l' => insert_by_score d (sort_by_score l')
  end.

Definition selected_docs (docs : list document) : list document :=
  firstn (Nat.min 3 (List.length docs)) (sort_by_score docs).

Definition string_of_nat (n : nat) : string :=
  NilZero.string_of_uint (Nat.to_uint n).

Definition display_title (title : string) : string :=
  if 60 <? String.length title then take 57 title +:+ "..." else title.

(** One turn of the rendering loop, for the document at (1-based) place [i]. *)
Definition source_line (i : nat) (doc : document) : string :=
  let title := get (title doc) "University Information" in
  let source_url := get (url doc) EmptyString in
  if nonempty source_url && negb (String.eqb source_url "Unknown")
  then string_of_nat i +:+ ". [" +:+ display_title title +:+ "]("
       +:+ source_url +:+ ")" +:+ newline
  else EmptyString.

Fixpoint source_lines (i : nat) (docs : list document) : string :=
  match docs with
  | [] => EmptyString
  | d :: docs' => source_line i d +:+ source_lines (S i) docs'
  end.

Definition sources_header : string := newline +:+ newline +:+ " " +:+ newline.

Definition format_sources (docs : list document) : string :=
  match docs with
  | [] => EmptyString
  | _ => sources_header +:+ source_lines 1 (selected_docs docs)
  end.

(** ** [_query_streaming] *)

Record event : Type := { content : string; sources : string; done : bool }.

(** [yield {"content": c, "sources": s, "done": True}; return] *)
Definition final_event (c s : string) : list event :=
  [ {| content := c; sources := s; done := true |} ].

Definition ERROR_REPLY : string :=
  "I encountered an error processing your question. Please try again.".

Definition GREETING_RESPONSES : list string :=
  ["Hi there! How can I help you with university information today?";
   "Hello! I'm here to assist you with any university-related questions.";
   "Hey! What would you like to know about the university?";
   "Good day! I'm ready to help with your university queries.";
   "Hi! Feel free to ask me anything about the university."].

Definition GREETING_KEYWORDS : list string :=
  ["hi"; "hello"; "hey"; "good morning"; "good evening";
   "good afternoon"; "how are you"; "what's up"; "howdy"].

Definition DATE_PHRASES : list string :=
  ["what is the date"; "what's the date"; "current date";
   "today's date"; "what date is it"].

Definition TIME_PHRASES : list string :=
  ["what time"; "current time"; "what's the time"].

(** The context budget, 20000 characters. *)
Definition CONTEXT_BUDGET : nat := 200 * 100.

(** What the chatbot obtains from outside the program. *)
Record runtime : Type := {
  (** [json.loads] and the accessors of the table code *)
  json_loads : string -> Formatter.loaded;
  (** [re]'s compilation of a replacement holding a backslash *)
  compile_template : string -> option (string -> string);
  (** [datetime.now()] formatted as a date and as a time of day *)
  current_date : string;
  current_time : string;
  (** the index drawn by [random.choice] *)
  greeting_choice : nat;
  (** [self.retriever.get_relevant_documents]; [None]: it raises *)
  get_relevant_documents : string -> option (list document);
  (** [prompts.get_rag_prompt] *)
  get_rag_prompt : string -> string -> string;
  (** [self.llm.stream], for instance [Llm.stream max_retries model] *)
  llm_stream : string -> list string;
  top_k : nat
}.

Definition parse_and_format_response (rt : runtime) : string -> option string :=
  Formatter.parse_and_format_response (json_loads rt) (compile_template rt).

(** The loop over the chunks and the final event; an exception raised by
    the formatter is caught by the handler of [_query_streaming], which
    yields the error reply as a final event. *)
Fixpoint stream_loop (rt : runtime) (question context : string)
         (filtered_docs : list document)
         (accumulated_answer : string) (chunks : list string) : list event :=
  match chunks with
  | [] =>
      match parse_and_format_response rt accumulated_answer with
      | Some final_answer =>
          let sources_info :=
            if should_show_sources final_answer context filtered_docs question
            then format_sources filtered_docs else EmptyString in
          final_event final_answer sources_info
      | None => final_event ERROR_REPLY EmptyString
      end
  | chunk :: chunks' =>
      let accumulated_answer := accumulated_answer +:+ chunk in
      match parse_and_format_response rt accumulated_answer with
      | Some parsed_chunk =>
          {| content := parsed_chunk; sources := EmptyString; done := false |}
          :: stream_loop rt question context filtered_docs
               accumulated_answer chunks'
      | None => final_event ERROR_REPLY EmptyString
      end
  end.

Definition query_streaming (rt : runtime) (question : string) : list event :=
  if negb (nonempty question) || negb (nonempty (strip question)) then
    final_event "Please ask a question about the university." EmptyString
  else if 1000 <? String.length question then
    final_event "Please keep your questions under 1000 characters." EmptyString
  else
    let q_lower := lower question in
    if any_in DATE_PHRASES q_lower then
      final_event ("Today's date is " +:+ current_date rt +:+ ".") EmptyString
    else if any_in TIME_PHRASES q_lower then
      final_event ("The current time is " +:+ current_time rt +:+ ".") EmptyString
    else if any_in GREETING_KEYWORDS q_lower && (word_count question <=? 3) then
      final_event
        (nth (greeting_choice rt mod List.length GREETING_RESPONSES)
             GREETING_RESPONSES EmptyString)
        EmptyString
    else
      match get_relevant_documents rt question with
      | None =>
          final_event
            "I'm having trouble accessing the knowledge base. Please try again."
            EmptyString
      | Some [] =>
          let result := handle_no_relevant_docs question in
          final_event (fst result) (snd result)
      | Some relevant_docs =>
          match filter_relevant_documents (top_k rt) relevant_docs with
          | [] =>
              let result := handle_no_relevant_docs question in
              final_event (fst result) (snd result)
          | filtered_docs =>
              let context := build_structured_context filtered_docs in
              let context :=
                if CONTEXT_BUDGET <? String.length context
                then take CONTEXT_BUDGET context +:+ "...[truncated]"
                else context in
              if String.length context <? 100 then
                final_event
                  ("I found some related information, but it's not detailed enough "
                   +:+ "to provide a comprehensive answer. Please try rephrasing your "
                   +:+ "question or ask about a more specific topic.")
                  EmptyString
              else
                let enhanced_prompt := get_rag_prompt rt context question in
                stream_loop rt question context filtered_docs EmptyString
                  (llm_stream rt enhanced_prompt)
          end
      end.

End Chatbot.

(* ===================================================================== *)
(** * ApiStream: the events written by [generate] in [chat_stream] *)
(* ===================================================================== *)

Module ApiStream.

(** One [data: {...}] line of the response. *)
Record sse : Type := {
  content : string;
  sources : string;
  done : bool;
  session_id : option string
}.

Definition forward (chunk : Chatbot.event) : sse :=
  {| content := Chatbot.content chunk; sources := Chatbot.sources chunk;
     done := Chatbot.done chunk; session_id := None |}.

(** [accumulated_answer] and [sources] after the loop: the last non-empty
    content and the last non-empty sources seen. *)
Definition last_nonempty (l : list string) : string :=
  fold_left (fun acc x => if Text.nonempty x then x else acc) l EmptyString.

Definition generate (sid : string) (chunks : list Chatbot.event) : list sse :=
  map forward chunks
  ++ [ {| content := last_nonempty (map Chatbot.content chunks);
          sources := last_nonempty (map Chatbot.sources chunks);
          done := true; session_id := Some sid |} ].

End ApiStream.

(* ===================================================================== *)
(** * Vocabulary of the properties *)
(* ===================================================================== *)

Module Spec.


(** The chat UI ran the pending message in answer to a skip. *)
Definition skip_run (a : Ui.action) : bool :=
  match a with Ui.RunQuery _ true => true | _ => false end.

(** In the chat UI a message is pending only once the counter has gone past
    the free limit: the blocked message itself has been counted. *)
Definition pending_over_limit (s : Ui.session) : Prop :=
  Text.truthy (Ui.pending_message s) = true ->
  Ui.FREE_QUERY_LIMIT < Ui.query_count s.

(** A string that does not begin with white space. *)
Definition no_leading_space (s : string) : Prop :=
  match s with
  | EmptyString => True
  | String c _ => Text.is_space c = false
  end.

(** [s] holds no occurrence of [p]. *)
Definition lacks (p s : string) : Prop := Text.find p s = None.

(** The opening pair of every marker. *)
Definition opener : string := "<<".

(** [s] holds a complete marker somewhere: two [<], a run of characters
    other than [>], and two [>]. *)
Fixpoint has_marker (s : string) : bool :=
  match s with
  | EmptyString => false
  | String _ s' =>
      match Formatter.marker_span s with
      | Some _ => true
      | None => has_marker s'
      end
  end.

(** The text read so far: the chunks put end to end. *)
Definition joined (chunks : list string) : string :=
  fold_right String.append EmptyString chunks.

(** A sequence of events that ends with its only final event. *)
Definition ends_with_only_done (evs : list Chatbot.event) : Prop :=
  exists init final,
    evs = init ++ [final]
    /\ Forall (fun ev => Chatbot.done ev = false) init
    /\ Chatbot.done final = true.

(** What attempt [i] hands to the caller before it completes or fails. *)
Definition delivered (model : Llm.backend) (prompt : string) (i : nat)
  : list string :=
  List.filter Text.nonempty (Llm.chunks (model prompt i)).

(** What the attempts [a], ..., [a + n - 1] hand over, one after the other. *)
Definition delivered_by (model : Llm.backend) (prompt : string) (a n : nat)
  : list string :=
  flat_map (delivered model prompt) (seq a n).

(** Document [a] is ranked no lower than [b]. *)
Definition outranks (a b : Chatbot.document) : Prop :=
  Chatbot.score b <= Chatbot.score a.

End Spec.

(* ===================================================================== *)
(** * Sample inputs *)
(* ===================================================================== *)

Module Sample.

(** An anonymous API session that has used its free queries. *)
Definition at_limit : Api.session :=
  {| Api.query_count := 2; Api.email_provided := false;
     Api.user_email := None; Api.skip_count := 0;
     Api.created_at := "2025-01-01T00:00:00" |}.

(** A UI session whose third message has been blocked. *)
Definition ui_blocked : Ui.session :=
  {| Ui.query_count := 3; Ui.email_provided := false; Ui.user_email := None;
     Ui.session_id := Some "session_1"; Ui.skip_count := 0;
     Ui.pending_message := Some "What are the hostel fees?" |}.

(** An API session with an e-mail on record. *)
Definition authenticated : Api.session :=
  {| Api.query_count := 2; Api.email_provided := true;
     Api.user_email := Some "a@b.com"; Api.skip_count := 0;
     Api.created_at := "2025-01-01T00:00:00" |}.

(** A store with one blocked session that has used its skip. *)
Definition one_session : gmap string Api.session :=
  <["session_1" :=
      {| Api.query_count := 3; Api.email_provided := false;
         Api.user_email := None; Api.skip_count := 1;
         Api.created_at := "2025-01-01T00:00:00" |}]> ∅.

(** What the request model makes of the addresses used below: it passes
    two of them as they are, strips the blanks around a third, and refuses
    everything else, as it refuses "not-an-email". *)
Definition request_model : Api.email_str :=
  fun raw =>
    if String.eqb raw "a@b.com" then Some "a@b.com"
    else if String.eqb raw " a@b.com " then Some "a@b.com"
    else if String.eqb raw "a!b@example.com" then Some "a!b@example.com"
    else None.

(** A backend that answers at the first attempt, the table marker being
    split over two chunks. *)
Definition split_marker_backend : Llm.backend :=
  fun _ _ =>
    {| Llm.chunks := ["See <<MARKDOWN_"; "TABLE>>| a |<<END_MARKDOWN_TABLE>>"];
       Llm.completes := true |}.

(** A document long enough to serve as context on its own. *)
Definition programmes_doc : Chatbot.document :=
  {| Chatbot.page_content :=
       "SRMIST offers undergraduate, postgraduate and doctoral programmes in "
       +:+ "engineering, management, medicine, science and the humanities.";
     Chatbot.chunk_type := None;
     Chatbot.title := Some "Programmes";
     Chatbot.url := Some "https://www.srmist.edu.in/programmes.pdf";
     Chatbot.source := None |}.

(** A runtime with a fixed clock, one retrieved document and a model behind
    the retrying stream. *)
Definition sample_runtime
           (json_loads : string -> Formatter.loaded)
           (compile_template : string -> option (string -> string))
           (model : Llm.backend) : Chatbot.runtime :=
  {| Chatbot.json_loads := json_loads;
     Chatbot.compile_template := compile_template;
     Chatbot.current_date := "Monday, January 06, 2025";
     Chatbot.current_time := "09:30 AM";
     Chatbot.greeting_choice := 0;
     Chatbot.get_relevant_documents := fun _ => Some [programmes_doc];
     Chatbot.get_rag_prompt :=
       fun context question =>
         context +:+ Text.newline +:+ "Question: " +:+ question;
     Chatbot.llm_stream := Llm.stream 3 model;
     Chatbot.top_k := 10 |}.

Definition split_marker_events
           (json_loads : string -> Formatter.loaded)
           (compile_template : string -> option (string -> string))
  : list Chatbot.event :=
  Chatbot.query_streaming
    (sample_runtime json_loads compile_template split_marker_backend)
    "Which programmes are offered?".

(** The first attempt delivers one chunk and breaks; so do the others. *)
Definition breaks_after_hello : Llm.backend :=
  fun _ i =>
    {| Llm.chunks := if i =? 0 then ["Hello"] else [];
       Llm.completes := false |}.

(** The first attempt breaks after one chunk, the second one completes. *)
Definition second_attempt_completes : Llm.backend :=
  fun _ i =>
    {| Llm.chunks := if i =? 0 then ["Hel"] else ["Hel"; "lo"];
       Llm.completes := negb (i =? 0) |}.

Definition hostel_doc : Chatbot.document :=
  {| Chatbot.page_content := "Hostel fees are listed per semester.";
     Chatbot.chunk_type := None;
     Chatbot.title := Some "Hostel";
     Chatbot.url := Some "https://example.org/hostel.pdf";
     Chatbot.source := None |}.

Definition fees_doc : Chatbot.document :=
  {| Chatbot.page_content := "Fee structure";
     Chatbot.chunk_type := Some "table_complete";
     Chatbot.title := Some "SRM Institute of Science and Technology Hostel Accommodation Fee Details 2025";
     Chatbot.url := Some "https://www.srmist.edu.in/fees.pdf";
     Chatbot.source := None |}.

Definition admissions_doc : Chatbot.document :=
  {| Chatbot.page_content := "Admissions"; Chatbot.chunk_type := None;
     Chatbot.title := Some "SRMIST Admissions";
     Chatbot.url := Some "Unknown"; Chatbot.source := Some "srmist.pdf" |}.

Definition untitled_doc : Chatbot.document :=
  {| Chatbot.page_content := "Misc"; Chatbot.chunk_type := None;
     Chatbot.title := None;
     Chatbot.url := None; Chatbot.source := None |}.

Definition placement_doc : Chatbot.document :=
  {| Chatbot.page_content := "Placement"; Chatbot.chunk_type := None;
     Chatbot.title := Some "Placement record of the university";
     Chatbot.url := Some "https://example.org/placement.pdf";
     Chatbot.source := None |}.

(** A title of 58 characters. *)
Definition title58 : string :=
  "SRM Institute of Science and Technology Fee Structure 2025".

Definition title58_doc : Chatbot.document :=
  {| Chatbot.page_content := "Fee structure"; Chatbot.chunk_type := None;
     Chatbot.title := Some title58;
     Chatbot.url := Some "https://www.srmist.edu.in/fees.pdf";
     Chatbot.source := None |}.

End Sample.

Import Spec Sample.

(* ===================================================================== *)
(** * AuthDb: the collections behind [AuthenticationManager] (main.py) *)
(* ===================================================================== *)

Module AuthDb.

(** A document of [email_only_users]. *)
Record user : Type := {
  email : string;
  created_at : string;
  last_used : string;
  total_queries : nat;
  session_id : string
}.

(** [find_one({"email": e})]: the first document with that address. *)
Definition find_one (e : string) (coll : list user) : option user :=
  List.find (fun u => String.eqb (email u) e) coll.

(** [update_one({"email": e}, {"$set": {last_used, session_id},
    "$inc": {"total_queries": 1}})]: only the first match is updated. *)
Fixpoint update_one (e now sid : string) (coll : list user) : list user :=
  match coll with
  | [] => []
  | u :: coll' =>
      if String.eqb (email u) e
      then {| email := email u; created_at := created_at u; last_used := now;
              total_queries := total_queries u + 1; session_id := sid |}
           :: coll'
      else u :: update_one e now sid coll'
  end.

Definition insert_one (u : user) (coll : list user) : list user := coll ++ [u].

(** [save_email_only] with the collection made explicit; [now1] and [now2]
    are the successive readings of the clock. *)
Definition save_email_only (am : Auth.manager) (now1 now2 : string)
           (email session_id : string) (coll : list user)
  : list user * Auth.result :=
  if negb (Auth.validate_email email) then
    (coll, {| Auth.success := false; Auth.message := "Invalid email format" |})
  else if negb (Auth.db_ok am) then
    (coll, {| Auth.success := false; Auth.message := "Failed to save email" |})
  else
    let email_lower := Text.lower email in
    let coll' :=
      match find_one email_lower coll with
      | Some _ => update_one email_lower now1 session_id coll
      | None =>
          insert_one {| email := email_lower; created_at := now1;
                        last_used := now2; total_queries := 1;
                        session_id := session_id |} coll
      end in
    (coll', {| Auth.success := true; Auth.message := "Email saved successfully" |}).

(** A document of [usage_logs]. *)
Record log_entry : Type := {
  student_id : option string;
  log_email : option string;
  log_session_id : option string;
  query : string;
  query_length : nat;
  response_length : nat;
  timestamp : string;
  date : string
}.

(** [log_query]: one document is added; a failing database call is logged
    and swallowed. *)
Definition log_query (am : Auth.manager) (timestamp date : string)
           (student_id : option string) (query : string) (response_length : nat)
           (email session_id : option string) (logs : list log_entry)
  : list log_entry :=
  if Auth.db_ok am then
    logs ++ [ {| student_id := student_id; log_email := email;
                 log_session_id := session_id;
                 query := Text.take 500 query;
                 query_length := String.length query;
                 response_length := response_length;
                 timestamp := timestamp; date := date |} ]
  else logs.

End AuthDb.

(* ===================================================================== *)
(** * LlmCall: [GeminiLLM.__call__] and [invoke] of llm_config.py *)
(* ===================================================================== *)

Module LlmCall.
Import Text.

(** The backend of the blocking call: the text of the response of attempt
    number [n] on a prompt; [None]: the call raises, or gives no response
    or a response without text. *)
Definition backend : Type := string -> nat -> option string.

Definition UNAVAILABLE : string := "Service temporarily unavailable.".

(** The text returned by an attempt, when it is not blank. *)
Definition usable (response : option string) : option string :=
  match response with
  | Some text => if nonempty (strip text) then Some (strip text) else None
  | None => None
  end.

(** [for attempt in range(max_retries)]: the value returned and the number
    of seconds slept in [time.sleep(2 ** attempt)] on the way. *)
Fixpoint retry_loop (model : backend) (prompt : string) (max_retries : nat)
         (attempt remaining : nat) : string * nat :=
  match remaining with
  | 0 => (UNAVAILABLE, 0)
  | S remaining' =>
      match usable (model prompt attempt) with
      | Some answer => (answer, 0)
      | None =>
          if attempt =? max_retries - 1 then (Llm.TROUBLE, 0)
          else
            let '(answer, slept) :=
              retry_loop model prompt max_retries (S attempt) remaining' in
            (answer, 2 ^ attempt + slept)
      end
  end.

Definition call (max_retries : nat) (model : backend) (prompt : string)
  : string * nat :=
  if negb (nonempty prompt) || negb (nonempty (strip prompt))
  then (Llm.EMPTY_PROMPT, 0)
  else retry_loop model (Llm.truncate prompt) max_retries 0 max_retries.

Definition invoke (max_retries : nat) (model : backend) (prompt : string)
  : string * nat :=
  call max_retries model prompt.

End LlmCall.

(* ===================================================================== *)
(** * ChatbotSync: [_query_non_streaming] and [query] of chatbot.py *)
(* ===================================================================== *)

Module ChatbotSync.
Import Text Chatbot.

(** [llm] is [self.llm.__call__], for instance
    [fun p => fst (LlmCall.call max_retries model p)]. *)
Definition query_non_streaming (rt : runtime) (llm : string -> string)
           (question : string) : string * string :=
  if negb (nonempty question) || negb (nonempty (strip question)) then
    ("Please ask a question about the university.", EmptyString)
  else if 1000 <? String.length question then
    ("Please keep your questions under 1000 characters.", EmptyString)
  else
    let q_lower := lower question in
    if any_in DATE_PHRASES q_lower then
      ("Today's date is " +:+ current_date rt +:+ ".", EmptyString)
    else if any_in TIME_PHRASES q_lower then
      ("The current time is " +:+ current_time rt +:+ ".", EmptyString)
    else if any_in GREETING_KEYWORDS q_lower && (word_count question <=? 3) then
      (nth (greeting_choice rt mod List.length GREETING_RESPONSES)
           GREETING_RESPONSES EmptyString,
       EmptyString)
    else
      match get_relevant_documents rt question with
      | None =>
          ("I'm having trouble accessing the knowledge base. Please try again.",
           EmptyString)
      | Some [] => handle_no_relevant_docs question
      | Some relevant_docs =>
          match filter_relevant_documents (top_k rt) relevant_docs with
          | [] => handle_no_relevant_docs question
          | filtered_docs =>
              let context := build_structured_context filtered_docs in
              let context :=
                if CONTEXT_BUDGET <? String.length context
                then take CONTEXT_BUDGET context +:+ "...[truncated]"
                else context in
              if String.length context <? 100 then
                ("I found some related information, but it's not detailed enough "
                 +:+ "to provide a comprehensive answer. Please try rephrasing your "
                 +:+ "question or ask about a more specific topic.",
                 EmptyString)
              else
                let enhanced_prompt := get_rag_prompt rt context question in
                let answer := llm enhanced_prompt in
                match parse_and_format_response rt answer with
                | Some cleaned_answer =>
                    let sources_info :=
                      if should_show_sources cleaned_answer context
                           filtered_docs question
                      then format_sources filtered_docs else EmptyString in
                    (cleaned_answer, sources_info)
                | None => (ERROR_REPLY, EmptyString)
                end
          end
      end.

(** What [query] hands back: a generator of events or a pair. *)
Inductive answer : Type :=
| Events (events : list event)
| Pair (answer sources : string).

Definition query (rt : runtime) (llm : string -> string)
           (question : string) (stream : bool) : answer :=
  if stream then Events (query_streaming rt question)
  else let '(a, s) := query_non_streaming rt llm question in Pair a s.

End ChatbotSync.

(* ===================================================================== *)
(** * UiQuery: [run_query] of UI.py *)
(* ===================================================================== *)

Module UiQuery.

(** The chat history: pairs of user text and bot text. *)
Definition history : Type := list (string * string).

(** The keys of the dictionary that [_query_streaming] yields, in order. *)
Definition keys (ev : Chatbot.event) : list string :=
  ["content"; "sources"; "done"].

(** [a, b = d] for a dictionary [d] with the keys [ks]: the targets receive
    the keys, of which there have to be exactly two ([None]: ValueError). *)
Definition unpack_pair (ks : list string) : option (string * string) :=
  match ks with
  | [a; b] => Some (a, b)
  | _ => None
  end.

(** [history[-1] = x] ([None]: IndexError) *)
Definition set_last (x : string * string) (h : history) : option history :=
  match h with
  | [] => None
  | _ => Some (removelast h ++ [x])
  end.

Definition NOT_INITIALIZED : string :=
  "Chatbot is not initialized. Please restart the application.".

Definition ERROR_REPLY : string :=
  "I encountered an error processing your question. Please try again.".

(** The state of the loop of [run_query]. *)
Record state : Type := {
  hist : history;
  accumulated_answer : string;
  sources : string;
  first_chunk : bool;
  yields : list history    (* the histories handed to the interface so far *)
}.

(** The text put beside the bot's reply. *)
Definition user_text (message : string) (as_pending : bool) : string :=
  if as_pending then EmptyString else message.

(** One turn of the loop; [inr]: an exception is raised, with the state it
    leaves. *)
Definition turn (message : string) (as_pending : bool)
           (ev : Chatbot.event) (st : state) : state + state :=
  match unpack_pair (keys ev) with
  | None => inr st
  | Some (partial_answer, partial_sources) =>
      let row := (user_text message as_pending, partial_answer) in
      let h := if first_chunk st then Some (hist st ++ [row])
               else set_last row (hist st) in
      match h with
      | Some h' =>
          inl {| hist := h'; accumulated_answer := partial_answer;
                 sources := partial_sources; first_chunk := false;
                 yields := yields st ++ [h'] |}
      | None =>
          inr {| hist := hist st; accumulated_answer := partial_answer;
                 sources := partial_sources; first_chunk := first_chunk st;
                 yields := yields st |}
      end
  end.

Fixpoint turns (message : string) (as_pending : bool)
         (evs : list Chatbot.event) (st : state) : state + state :=
  match evs with
  | [] => inl st
  | ev :: evs' =>
      match turn message as_pending ev st with
      | inl st' => turns message as_pending evs' st'
      | inr st' => inr st'
      end
  end.

(** What a call of [run_query] leaves: the histories yielded, the final
    history and, when the query was logged, the logged query and response
    length. *)
Record outcome : Type := {
  yielded : list history;
  final : history;
  logged : option (string * nat)
}.

(** The handler of exceptions: the error reply is appended and yielded. *)
Definition on_error (message : string) (as_pending : bool) (st : state)
  : outcome :=
  let h := hist st ++ [(user_text message as_pending, ERROR_REPLY)] in
  {| yielded := yields st ++ [h]; final := h; logged := None |}.

(** [chatbot]: [None] when the chatbot is not initialised, otherwise the
    events that [chatbot.query(message, stream=True)] yields; [auth]: whether
    an authentication manager is present. *)
Definition run_query (chatbot : option (list Chatbot.event)) (auth : bool)
           (message : string) (h : history) (as_pending : bool) : outcome :=
  match chatbot with
  | None =>
      let h' := h ++ [(message, NOT_INITIALIZED)] in
      {| yielded := [h']; final := h'; logged := None |}
  | Some evs =>
      let st0 := {| hist := h; accumulated_answer := EmptyString;
                    sources := EmptyString; first_chunk := true;
                    yields := [] |} in
      match turns message as_pending evs st0 with
      | inr st => on_error message as_pending st
      | inl st =>
          let log := if auth
                     then Some (message, String.length (accumulated_answer st))
                     else None in
          if Text.nonempty (sources st) then
            let bot_response :=
              accumulated_answer st +:+ Text.newline +:+ Text.newline
              +:+ sources st in
            match set_last (user_text message as_pending, bot_response)
                           (hist st) with
            | Some h' =>
                {| yielded := yields st ++ [h']; final := h'; logged := log |}
            | None => on_error message as_pending st
            end
          else
            {| yielded := yields st; final := hist st; logged := log |}
      end
  end.

End UiQuery.

(* ===================================================================== *)
(** * Vocabulary and sample inputs of the further properties *)
(* ===================================================================== *)

Module Props.

(** A request that carries no e-mail address. *)
Definition without_email (r : Api.request) : bool :=
  match r with
  | Api.ReqChat e => negb (Text.truthy e)
  | Api.ReqStream e => negb (Text.truthy e)
  | Api.ReqSkip => true
  | Api.ReqSubmit _ _ => false
  end.

(** An API session records an address exactly when [email_provided] is set,
    and has used at most one skip. *)
Definition api_consistent (s : Api.session) : Prop :=
  (Api.email_provided s = true <-> Api.user_email s <> None)
  /\ Api.skip_count s <= 1.

(** The same for the chat UI, with the pending message: a message is
    pending only for an anonymous session past the free limit. *)
Definition ui_consistent (s : Ui.session) : Prop :=
  (Ui.email_provided s = true <-> Ui.user_email s <> None)
  /\ Ui.skip_count s <= 1
  /\ (Text.truthy (Ui.pending_message s) = true ->
      Ui.email_provided s = false
      /\ Ui.FREE_QUERY_LIMIT < Ui.query_count s).

(** The skips accepted so far in a UI conversation are recorded in
    [skip_count] until the e-mail is given; afterwards nothing is pending. *)
Definition ui_skip_account (s : Ui.session) (skips : nat) : Prop :=
  skips <= 1
  /\ (Ui.email_provided s = false -> Ui.skip_count s = skips)
  /\ (Ui.email_provided s = true -> Text.truthy (Ui.pending_message s) = false).

(** An ordinary chat message: not blank and neither of the two commands
    of the inline buttons. *)
Definition plain_message (m : string) : bool :=
  Text.nonempty m && Text.nonempty (Text.strip m)
  && negb (Text.startswith "EMAIL_SUBMIT:" m)
  && negb (String.eqb m "SKIP_EMAIL").

(** Two UI sessions that differ at most in their session id. *)
Definition ui_same_quota (s s' : Ui.session) : Prop :=
  Ui.query_count s' = Ui.query_count s
  /\ Ui.email_provided s' = Ui.email_provided s
  /\ Ui.user_email s' = Ui.user_email s
  /\ Ui.skip_count s' = Ui.skip_count s
  /\ Ui.pending_message s' = Ui.pending_message s.

(** The stripped text of a document, by which the context tells
    duplicates. *)
Definition content_key (d : Chatbot.document) : string :=
  Text.strip (Chatbot.page_content d).

(** A document whose URL is missing, empty or "Unknown". *)
Definition no_link (d : Chatbot.document) : bool :=
  negb (Text.nonempty (Chatbot.get (Chatbot.url d) EmptyString)
        && negb (String.eqb (Chatbot.get (Chatbot.url d) EmptyString)
                            "Unknown")).

(** The last element of a list of events, if any. *)
Definition last_event (evs : list Chatbot.event) : option Chatbot.event :=
  List.last (map Some evs) None.

(** The character that opens every marker. *)
Definition angle : string := "<".

(** No occurrence of [p] in [a +:+ s] starts within [a]. *)
Definition misses_at (p a s : string) : Prop :=
  forall i, i < String.length a ->
            Text.startswith p (Text.drop i (a +:+ s)) = false.

End Props.

Module RegexSem.
Import Regex.

(** The words of a regular expression, as the [re] documentation defines
    them; [fullmatch] is checked against this relation. *)
Inductive matches : re -> string -> Prop :=
| MEps : matches Eps EmptyString
| MClass p c : p c = true -> matches (Class p) (String c EmptyString)
| MCat a b s t : matches a s -> matches b t -> matches (Cat a b) (s +:+ t)
| MAltL a b s : matches a s -> matches (Alt a b) s
| MAltR a b s : matches b s -> matches (Alt a b) s
| MStarNil a : matches (Star a) EmptyString
| MStarApp a s t :
    matches a s -> matches (Star a) t -> matches (Star a) (s +:+ t).

(** Every character of [s] satisfies [p]. *)
Fixpoint all (p : ascii -> bool) (s : string) : bool :=
  match s with
  | EmptyString => true
  | String c s' => p c && all p s'
  end.

End RegexSem.

Module PropSample.

(** A store with two sessions. *)
Definition two_sessions : gmap string Api.session :=
  <["session_2" := Sample.authenticated]> Sample.one_session.

(** A blocked anonymous session: past the limit, skip used. *)
Definition blocked : Api.session :=
  {| Api.query_count := 3; Api.email_provided := false;
     Api.user_email := None; Api.skip_count := 1;
     Api.created_at := "2025-01-01T00:00:00" |}.

(** A blocking backend whose first two attempts give nothing usable. *)
Definition third_time_lucky : LlmCall.backend :=
  fun _ n => match n with
             | 0 => None
             | 1 => Some "   "
             | _ => Some " The fee is 1000. "
             end.

(** What [json.loads] and the table code make of three texts: an empty
    object is a table without columns, a list is not a table, and anything
    else here does not decode. *)
Definition sample_json_loads (text : string) : Formatter.loaded :=
  if String.eqb text "{}" then Formatter.TableData [] []
  else if String.eqb text "[1]" then Formatter.OtherError
  else Formatter.JSONDecodeError.

(** A runtime behind a model that answers in two chunks at the first
    attempt; on a JSON block holding a list its formatter raises. *)
Definition two_chunk_backend : Llm.backend :=
  fun _ _ => {| Llm.chunks := ["SRMIST offers "; "many programmes."];
                Llm.completes := true |}.

Definition steady_runtime : Chatbot.runtime :=
  Sample.sample_runtime sample_json_loads (fun _ => None) two_chunk_backend.


End PropSample.

Import Props PropSample.

(* ===================================================================== *)
(** * Properties of the session store and of the quota gate *)
(* ===================================================================== *)

Section SessionStore.

Implicit Types (st : gmap string Api.session) (sid : string).

Lemma clear_session_store sid st :
  fst (Api.clear_session sid st) = delete sid st.
Proof.
  unfold Api.clear_session; simpl.
  destruct (st !! sid) eqn:E; [reflexivity|].
  symmetry. by apply delete_id.
Qed.

(** C10.  Clearing a session always answers with success, whether or not
    the id is stored; afterwards the store has no entry for the id, every
    other entry is as before, and clearing once more changes nothing and
    gives the same answer. *)
Theorem clear_session_total_idempotent sid st :
  Api.success (snd (Api.clear_session sid st)) = true
  /\ fst (Api.clear_session sid st) !! sid = None
  /\ (forall other, other <> sid ->
        fst (Api.clear_session sid st) !! other = st !! other)
  /\ Api.clear_session sid (fst (Api.clear_session sid st))
     = Api.clear_session sid st.
Proof.
  split; [reflexivity|].
  rewrite clear_session_store.
  split; [apply lookup_delete_eq|].
  split.
  - intros other Hne. by apply lookup_delete_ne.
  - unfold Api.clear_session.
    rewrite lookup_delete_eq.
    destruct (st !! sid) eqn:E; [reflexivity|].
    by rewrite delete_id.
Qed.

End SessionStore.

(** Comparisons are kept folded by [simpl] and turned into propositions. *)
Ltac bool_to_prop :=
  repeat match goal with
    | H : negb _ = true |- _ => apply negb_true_iff in H
    | H : negb _ = false |- _ => apply negb_false_iff in H
    | H : (_ <=? _) = true |- _ => apply Nat.leb_le in H
    | H : (_ <=? _) = false |- _ => apply Nat.leb_gt in H
    | H : (_ <? _) = true |- _ => apply Nat.ltb_lt in H
    | H : (_ <? _) = false |- _ => apply Nat.ltb_ge in H
    | H : (_ =? _) = true |- _ => apply Nat.eqb_eq in H
    | H : (_ =? _) = false |- _ => apply Nat.eqb_neq in H
    end.

Ltac split_ifs :=
  repeat match goal with
    | |- context [if ?b then _ else _] => destruct b eqn:?
    end.

Section ApiGate.

Import Api.
Implicit Types (s : session) (e : option string).

Local Arguments Nat.leb : simpl never.
Local Arguments Nat.ltb : simpl never.
Local Arguments Nat.eqb : simpl never.

Ltac api_unfold :=
  unfold chat, chat_stream, stream_gate, generate, skip_session,
    submit_session, Auth.save_email_only.

Ltac api_cases :=
  api_unfold; split_ifs; bool_to_prop; unfold FREE_QUERY_LIMIT in *;
  simpl in *.

Lemma skip_session_accept_iff s :
  accepted (snd (skip_session s)) = true
  <-> query_count s = FREE_QUERY_LIMIT /\ skip_count s = 0.
Proof.
  api_cases; (split; [intros H | intros [? ?]]);
    solve [discriminate H | reflexivity | lia | split; lia].
Qed.

Lemma skip_session_accepted s :
  accepted (snd (skip_session s)) = true ->
  fst (skip_session s) = set_skip_count 1 s.
Proof. api_cases; solve [discriminate | reflexivity]. Qed.

Lemma skip_session_rejected s :
  accepted (snd (skip_session s)) = false -> fst (skip_session s) = s.
Proof. api_cases; solve [discriminate | reflexivity]. Qed.

(** After an accepted skip the resent message passes the gate of
    [chat_stream], and [generate] counts it. *)
Lemma resend_after_skip s e :
  query_count s = FREE_QUERY_LIMIT ->
  snd (chat_stream e (set_skip_count 1 s)) = Allow
  /\ query_count (fst (chat_stream e (set_skip_count 1 s)))
     = FREE_QUERY_LIMIT + 1.
Proof.
  intros Hq. api_cases; (split; [try reflexivity | try lia]).
  all: try discriminate; try lia.
Qed.


Lemma step_email_provided sid r s :
  email_provided s = true -> email_provided (fst (step sid r s)) = true.
Proof.
  intros He.
  destruct r as [e|e| |auth e]; [| | |destruct auth as [am|]]; simpl;
    api_unfold; rewrite ?He; simpl; split_ifs; simpl; rewrite ?He;
    try reflexivity.
  all: simpl; split_ifs; simpl; rewrite ?He; reflexivity.
Qed.

Lemma run_email_provided sid rs : forall s k,
  email_provided s = true -> email_provided (fst (run sid rs s k)) = true.
Proof.
  induction rs as [|r rs IH]; intros s k He; simpl; [exact He|].
  destruct (step sid r s) as [s' a] eqn:E.
  apply IH. change s' with (fst (s', a)). rewrite <- E.
  by apply step_email_provided.
Qed.





End ApiGate.

Section UiGate.

Import Ui.
Implicit Types (s : session) (auth : option Auth.manager).

Local Arguments Nat.leb : simpl never.
Local Arguments Nat.eqb : simpl never.

Ltac ui_unfold :=
  unfold chat_handler, handle_email_submission, handle_skip_email,
    process_normal_message, submit_email, ensure_session_id.

Ltac ui_cases :=
  ui_unfold;
  repeat match goal with
    | |- context [match ?o with Some _ => _ | None => _ end] => destruct o eqn:?
    | |- context [if ?b then _ else _] => destruct b eqn:?
    end;
  bool_to_prop; unfold FREE_QUERY_LIMIT in *; simpl in *.

Lemma handle_skip_email_accept_iff s :
  skip_run (snd (handle_skip_email s)) = true
  <-> Text.truthy (pending_message s) = true /\ skip_count s = 0.
Proof.
  unfold handle_skip_email.
  destruct (pending_message s) as [p|]; simpl.
  - destruct (Text.nonempty p); simpl.
    + destruct (Nat.eqb_spec (skip_count s) 0); simpl.
      * split; [intros _; split; [reflexivity|assumption] | reflexivity].
      * split; [discriminate | intros [_ ?]; contradiction].
    + split; [discriminate | intros [? _]; discriminate].
  - split; [discriminate | intros [? _]; discriminate].
Qed.

Lemma handle_skip_email_accepted s :
  skip_run (snd (handle_skip_email s)) = true ->
  fst (handle_skip_email s) = set_pending_message None (set_skip_count 1 s)
  /\ snd (handle_skip_email s)
     = RunQuery (Chatbot.get (pending_message s) EmptyString) true.
Proof.
  unfold handle_skip_email.
  destruct (pending_message s) as [p|]; simpl; [|discriminate].
  destruct (Text.nonempty p); simpl; [|discriminate].
  destruct (skip_count s =? 0); simpl; [|discriminate].
  intros _. split; reflexivity.
Qed.

Lemma handle_skip_email_rejected s :
  skip_run (snd (handle_skip_email s)) = false ->
  fst (handle_skip_email s) = s.
Proof.
  unfold handle_skip_email.
  destruct (pending_message s) as [p|]; simpl; [|reflexivity].
  destruct (Text.nonempty p); simpl; [|reflexivity].
  destruct (skip_count s =? 0); simpl; [discriminate | reflexivity].
Qed.




Lemma chat_handler_pending auth fresh m s :
  pending_over_limit s ->
  pending_over_limit (fst (chat_handler auth fresh m s)).
Proof.
  unfold pending_over_limit. intros H.
  ui_cases; intros Hp;
    repeat match goal with
      | E : pending_message s = _ |- _ => rewrite E in Hp; clear E
      end;
    simpl in Hp; try discriminate Hp; try specialize (H Hp); lia.
Qed.

Lemma run_pending auth fresh ms : forall s k,
  pending_over_limit s ->
  pending_over_limit (fst (run auth fresh ms s k)).
Proof.
  induction ms as [|m ms IH]; intros s k H; simpl; [exact H|].
  pose proof (chat_handler_pending auth fresh m s H) as H'.
  destruct (chat_handler auth fresh m s) as [s' a]. by apply IH.
Qed.

(** With the e-mail on record an ordinary message is run at once and the
    counters stay as they are. *)
Lemma process_normal_message_authenticated fresh m s :
  email_provided s = true ->
  snd (process_normal_message fresh m s) = RunQuery m false
  /\ query_count (fst (process_normal_message fresh m s)) = query_count s
  /\ skip_count (fst (process_normal_message fresh m s)) = skip_count s
  /\ email_provided (fst (process_normal_message fresh m s)) = true.
Proof.
  intros He. unfold process_normal_message, ensure_session_id.
  destruct (Text.truthy (session_id s)); simpl; rewrite He; simpl; auto.
Qed.

(** A rejected e-mail submission changes none of the quota fields. *)
Lemma handle_email_submission_invalid auth fresh m s :
  Auth.validate_email (Text.strip (Text.replace "EMAIL_SUBMIT:" "" m)) = false ->
  let s' := fst (handle_email_submission auth fresh m s) in
  (exists status, snd (handle_email_submission auth fresh m s) = EmailError status)
  /\ query_count s' = query_count s
  /\ email_provided s' = email_provided s
  /\ user_email s' = user_email s
  /\ skip_count s' = skip_count s
  /\ pending_message s' = pending_message s.
Proof.
  intros Hv. unfold handle_email_submission, submit_email, Auth.save_email_only.
  rewrite Hv. simpl.
  destruct auth as [am|]; simpl; [|by eauto 10].
  match goal with |- context [if ?b then _ else _] => destruct b end; simpl;
    [by eauto 10|].
  unfold ensure_session_id.
  destruct (Text.truthy (session_id s)); simpl; by eauto 10.
Qed.

End UiGate.

(* ===================================================================== *)
(** * The quota gate: skip, bound, authenticated sessions, e-mail *)
(* ===================================================================== *)

Section GateClaims.

Local Arguments Nat.leb : simpl never.
Local Arguments Nat.ltb : simpl never.
Local Arguments Nat.eqb : simpl never.

(** The endpoint [skip_email] on a stored session is [skip_session] on
    that session, written back under the same id. *)
Lemma skip_email_stored sid (st : gmap string Api.session) s :
  Text.nonempty sid = true -> st !! sid = Some s ->
  Api.skip_email sid st
  = (<[sid := fst (Api.skip_session s)]> st, snd (Api.skip_session s)).
Proof.
  intros Hn Hs. unfold Api.skip_email. rewrite Hn, Hs. simpl.
  destruct (Api.skip_session s) as [s' r] eqn:E. simpl.
  destruct r as [c d|[|] m|]; try reflexivity.
  all: assert (Hr : Api.accepted (snd (Api.skip_session s)) = false)
    by (rewrite E; reflexivity).
  all: apply skip_session_rejected in Hr; rewrite E in Hr; simpl in Hr;
    subst s'; by rewrite insert_id.
Qed.

(** C1, as amended.  On the HTTP API a skip is accepted exactly when
    [query_count] equals the free limit and [skip_count] is 0.  An accepted
    skip sets [skip_count] to 1 and changes nothing else; the message
    resent afterwards passes the gate of the streaming endpoint and is
    counted: [query_count] becomes the limit plus one.  A rejected skip
    changes no field.  In the chat UI a skip is accepted exactly when a
    message is pending and [skip_count] is 0; it sets [skip_count] to 1,
    clears the pending message, runs that very message as a pending query,
    and leaves [query_count] as it is; a rejected skip changes no field and
    runs nothing: it reports that nothing is pending, or refuses. *)
Theorem skip_accepted_exactly_at_limit
        (s : Api.session) (e : option string) (u : Ui.session) :
  (Api.accepted (snd (Api.skip_session s)) = true
   <-> Api.query_count s = Api.FREE_QUERY_LIMIT /\ Api.skip_count s = 0)
  /\ (Api.accepted (snd (Api.skip_session s)) = true ->
      fst (Api.skip_session s) = Api.set_skip_count 1 s
      /\ snd (Api.chat_stream e (fst (Api.skip_session s))) = Api.Allow
      /\ Api.query_count (fst (Api.chat_stream e (fst (Api.skip_session s))))
         = Api.FREE_QUERY_LIMIT + 1)
  /\ (Api.accepted (snd (Api.skip_session s)) = false ->
      fst (Api.skip_session s) = s)
  /\ (skip_run (snd (Ui.handle_skip_email u)) = true
      <-> Text.truthy (Ui.pending_message u) = true /\ Ui.skip_count u = 0)
  /\ (skip_run (snd (Ui.handle_skip_email u)) = true ->
      fst (Ui.handle_skip_email u)
      = Ui.set_pending_message None (Ui.set_skip_count 1 u)
      /\ Ui.query_count (fst (Ui.handle_skip_email u)) = Ui.query_count u
      /\ exists p,
           Ui.pending_message u = Some p
           /\ p <> EmptyString
           /\ snd (Ui.handle_skip_email u) = Ui.RunQuery p true)
  /\ (skip_run (snd (Ui.handle_skip_email u)) = false ->
      fst (Ui.handle_skip_email u) = u
      /\ snd (Ui.handle_skip_email u)
         = if Text.truthy (Ui.pending_message u)
           then Ui.SkipRefused else Ui.NoPending).
Proof.
  split; [apply skip_session_accept_iff|].
  split.
  { intros Ha. rewrite (skip_session_accepted s Ha).
    apply skip_session_accept_iff in Ha as [Hq _].
    split; [reflexivity|]. by apply resend_after_skip. }
  split; [apply skip_session_rejected|].
  split; [apply handle_skip_email_accept_iff|].
  split.
  - intros Ha. destruct (handle_skip_email_accepted u Ha) as [-> Hrun].
    split; [reflexivity|]. split; [reflexivity|].
    apply handle_skip_email_accept_iff in Ha as [Hp _].
    destruct (Ui.pending_message u) as [p|]; [|discriminate Hp].
    exists p. split; [reflexivity|].
    split; [by destruct p | exact Hrun].
  - intros Hr. split; [by apply handle_skip_email_rejected|].
    revert Hr. unfold Ui.handle_skip_email.
    destruct (Ui.pending_message u) as [p|]; simpl; [|reflexivity].
    destruct (Text.nonempty p); simpl; [|reflexivity].
    destruct (Ui.skip_count u =? 0); simpl; [discriminate | reflexivity].
Qed.

Lemma skip_accepted_exactly_at_limit_witness :
  Api.accepted (snd (Api.skip_session at_limit)) = true
  /\ Api.query_count
       (fst (Api.chat_stream None (fst (Api.skip_session at_limit)))) = 3
  /\ Ui.query_count (fst (Ui.handle_skip_email ui_blocked)) = 3
  /\ snd (Ui.handle_skip_email ui_blocked)
     = Ui.RunQuery "What are the hostel fees?" true.
Proof.
  pose proof (skip_accepted_exactly_at_limit at_limit None ui_blocked)
    as (_ & Hacc & _ & _ & Hui & _).
  assert (Ha : Api.accepted (snd (Api.skip_session at_limit)) = true)
    by reflexivity.
  assert (Hu : skip_run (snd (Ui.handle_skip_email ui_blocked)) = true)
    by reflexivity.
  destruct (Hacc Ha) as (_ & _ & Hq).
  destruct (Hui Hu) as (_ & Hk & p & Hp & _ & Hrun).
  split; [exact Ha|]. split; [exact Hq|]. split; [exact Hk|].
  rewrite Hrun. injection Hp as <-. reflexivity.
Defined.

(** C1 as stated fails: at the limit with no skip used the skip is
    accepted, and processing the resent message changes [query_count]
    from 2 to 3. *)
Lemma skip_resend_is_counted :
  Api.accepted (snd (Api.skip_session at_limit)) = true
  /\ Api.skip_count (fst (Api.skip_session at_limit)) = 1
  /\ Api.chat_stream None (fst (Api.skip_session at_limit))
     = (Api.set_query_count 3 (Api.set_skip_count 1 at_limit), Api.Allow)
  /\ Api.query_count
       (fst (Api.chat_stream None (fst (Api.skip_session at_limit))))
     <> Api.query_count at_limit.
Proof. repeat split. vm_compute. discriminate. Qed.


(** The bound above is for requests handled one after the other.  When the
    gate checks of two streaming requests both run before either stream has
    been read to its end, both are let through and both are counted. *)
Example interleaved_streams_pass_the_limit :
  let s := Api.set_query_count 1 (Api.new_session "2025-01-01T00:00:00") in
  Api.stream_gate None s = (s, Api.Allow)
  /\ Api.query_count (Api.generate (Api.generate s)) = 3
  /\ Api.skip_count (Api.generate (Api.generate s)) = 0
  /\ Api.email_provided (Api.generate (Api.generate s)) = false.
Proof. repeat split. Qed.


End GateClaims.

Section AuthenticatedClaims.

Local Arguments Nat.leb : simpl never.
Local Arguments Nat.ltb : simpl never.
Local Arguments Nat.eqb : simpl never.

(** The non-streaming endpoint leaves both counters of a session with an
    e-mail on record as they are. *)
Lemma chat_authenticated_counters (s : Api.session) (e : option string) :
  Api.email_provided s = true ->
  snd (Api.chat e s) = Api.Answered /\ fst (Api.chat e s) = s.
Proof.
  intros He. unfold Api.chat.
  repeat (rewrite ?He, ?andb_false_r; simpl). split; reflexivity.
Qed.

(** C3 fails on the streaming endpoint.  For a session with an e-mail on
    record [chat_stream] lets the message through and [generate] then adds
    one to [query_count]; [skip_count] and the other fields stay as they
    are.  (The non-streaming endpoint and the chat UI leave both counters
    unchanged: [chat_authenticated_counters],
    [process_normal_message_authenticated].) *)
Theorem chat_stream_counts_authenticated (s : Api.session) (e : option string) :
  Api.email_provided s = true ->
  Api.chat_stream e s
  = (Api.set_query_count (Api.query_count s + 1) s, Api.Allow)
  /\ Api.query_count (fst (Api.chat_stream e s)) <> Api.query_count s
  /\ Api.skip_count (fst (Api.chat_stream e s)) = Api.skip_count s.
Proof.
  intros He. unfold Api.chat_stream, Api.stream_gate. rewrite He.
  unfold Api.generate. simpl. repeat split. lia.
Qed.

Lemma chat_stream_counts_authenticated_witness :
  Api.email_provided authenticated = true
  /\ Api.query_count (fst (Api.chat_stream None authenticated)) = 3
  /\ Api.query_count authenticated = 2.
Proof.
  assert (He : Api.email_provided authenticated = true) by reflexivity.
  destruct (chat_stream_counts_authenticated authenticated None He)
    as (Hs & _ & _).
  split; [exact He|]. rewrite Hs. split; reflexivity.
Defined.

(** C4.  Once [submit_email] has answered with success, the session is
    stored with [email_provided] set, and after any further requests on it
    (chat, stream, skip, e-mail) every gate check lets the message through,
    whatever [query_count] is: the streaming gate answers [Allow] and the
    non-streaming endpoint answers the query. *)
Theorem email_success_then_always_allowed
        (check : Api.email_str)
        (auth : option Auth.manager) (sid email msg : string)
        (st st' : gmap string Api.session)
        (rs : list Api.request) (e : option string) :
  Api.submit_email check auth sid email st
  = (st', Api.EmailResponse true msg) ->
  exists s,
    st' !! sid = Some s
    /\ Api.email_provided s = true
    /\ snd (Api.stream_gate e (fst (Api.run sid rs s 0))) = Api.Allow
    /\ snd (Api.chat_stream e (fst (Api.run sid rs s 0))) = Api.Allow
    /\ snd (Api.chat e (fst (Api.run sid rs s 0))) = Api.Answered.
Proof.
  unfold Api.submit_email.
  destruct (check email) as [normalised|]; [|discriminate].
  destruct (Text.nonempty sid); simpl; [|discriminate].
  destruct (st !! sid) as [s0|] eqn:Hs; [|discriminate].
  destruct (Api.submit_session auth sid normalised s0) as [s r] eqn:E.
  intros H. injection H as <- ->.
  assert (He : Api.email_provided s = true).
  { unfold Api.submit_session in E.
    destruct auth as [am|]; [destruct (negb _)|]; injection E as <- _;
      reflexivity. }
  exists s. split; [apply lookup_insert_eq|]. split; [exact He|].
  pose proof (run_email_provided sid rs s 0 He) as Hr.
  split; [|split].
  - unfold Api.stream_gate. by rewrite Hr.
  - unfold Api.chat_stream, Api.stream_gate. by rewrite Hr.
  - by apply chat_authenticated_counters.
Qed.

Lemma email_success_then_always_allowed_witness :
  exists s,
    fst (Api.submit_email request_model (Some {| Auth.db_ok := true |})
           "session_1" " a@b.com " one_session) !! "session_1" = Some s
    /\ Api.email_provided s = true
    /\ snd (Api.stream_gate None
              (fst (Api.run "session_1"
                      [Api.ReqStream None; Api.ReqSkip; Api.ReqChat None] s 0)))
       = Api.Allow.
Proof.
  destruct (email_success_then_always_allowed request_model
              (Some {| Auth.db_ok := true |}) "session_1" " a@b.com "
              "Email saved successfully" one_session
              (fst (Api.submit_email request_model
                      (Some {| Auth.db_ok := true |})
                      "session_1" " a@b.com " one_session))
              [Api.ReqStream None; Api.ReqSkip; Api.ReqChat None] None)
    as (s & Hs & He & Hg & _).
  - vm_compute. reflexivity.
  - exists s. split; [exact Hs|]. split; [exact He | exact Hg].
Defined.

(** The same in the chat UI: with the e-mail on record every later
    message keeps it on record, and an ordinary message is always run. *)
Lemma ui_authenticated_always_runs auth fresh ms : forall (u : Ui.session) k,
  Ui.email_provided u = true ->
  Ui.email_provided (fst (Ui.run auth fresh ms u k)) = true.
Proof.
  induction ms as [|m ms IH]; intros u k He; simpl; [exact He|].
  destruct (Ui.chat_handler auth fresh m u) as [u' a] eqn:E.
  apply IH. change u' with (fst (u', a)). rewrite <- E. clear E IH.
  unfold Ui.chat_handler, Ui.handle_email_submission, Ui.handle_skip_email,
    Ui.process_normal_message, Ui.submit_email, Ui.ensure_session_id.
  repeat match goal with
    | |- context [match ?o with Some _ => _ | None => _ end] => destruct o eqn:?
    | |- context [if ?b then _ else _] => destruct b eqn:?
    end; simpl in *; congruence.
Qed.

(** C5 fails on the HTTP API.  For an address that the request model
    passes, [submit_email] writes the session before the address is
    checked: when [validate_email] refuses the normalised address, the
    request is answered with the error 400 "Invalid email format", yet the
    session now has [email_provided] set, the address stored and
    [skip_count] reset.  An address that the request model refuses is
    answered with status 422 and nothing is written.  (The chat UI leaves
    the session as it was: [handle_email_submission_invalid].) *)
Theorem submit_email_invalid_still_writes
        (check : Api.email_str) (am : Auth.manager)
        (sid raw email : string)
        (st : gmap string Api.session) (s : Api.session) :
  Text.nonempty sid = true ->
  st !! sid = Some s ->
  check raw = Some email ->
  Auth.validate_email email = false ->
  Api.submit_email check (Some am) sid raw st
  = (<[sid := Api.set_skip_count 0 (Api.set_email (Some email) s)]> st,
     Api.HttpError 400 "Invalid email format")
  /\ (forall auth refused,
        check refused = None ->
        Api.submit_email check auth sid refused st = (st, Api.Unprocessable)).
Proof.
  intros Hn Hs Hc Hv. split.
  - unfold Api.submit_email, Api.submit_session, Auth.save_email_only.
    rewrite Hc, Hn, Hs, Hv. reflexivity.
  - intros auth refused Hr. unfold Api.submit_email. by rewrite Hr.
Qed.

Lemma submit_email_invalid_still_writes_witness :
  request_model "a!b@example.com" = Some "a!b@example.com"
  /\ Auth.validate_email "a!b@example.com" = false
  /\ snd (Api.submit_email request_model (Some {| Auth.db_ok := true |})
            "session_1" "a!b@example.com" one_session)
     = Api.HttpError 400 "Invalid email format"
  /\ fst (Api.submit_email request_model (Some {| Auth.db_ok := true |})
            "session_1" "a!b@example.com" one_session) !! "session_1"
     = Some {| Api.query_count := 3; Api.email_provided := true;
               Api.user_email := Some "a!b@example.com";
               Api.skip_count := 0;
               Api.created_at := "2025-01-01T00:00:00" |}
  /\ one_session !! "session_1"
     = Some {| Api.query_count := 3; Api.email_provided := false;
               Api.user_email := None; Api.skip_count := 1;
               Api.created_at := "2025-01-01T00:00:00" |}
  /\ Api.submit_email request_model (Some {| Auth.db_ok := true |})
       "session_1" "not-an-email" one_session
     = (one_session, Api.Unprocessable).
Proof.
  assert (Hv : Auth.validate_email "a!b@example.com" = false)
    by (vm_compute; reflexivity).
  assert (Hs : one_session !! "session_1"
               = Some {| Api.query_count := 3; Api.email_provided := false;
                         Api.user_email := None; Api.skip_count := 1;
                         Api.created_at := "2025-01-01T00:00:00" |})
    by apply lookup_insert_eq.
  destruct (submit_email_invalid_still_writes request_model
              {| Auth.db_ok := true |} "session_1" "a!b@example.com"
              "a!b@example.com" one_session _ eq_refl Hs eq_refl Hv)
    as [Hw Hr].
  rewrite Hw, (Hr _ "not-an-email" eq_refl).
  split; [reflexivity|]. split; [exact Hv|]. split; [reflexivity|].
  split; [apply lookup_insert_eq|]. split; [exact Hs | reflexivity].
Defined.

End AuthenticatedClaims.

(* ===================================================================== *)
(** * The answer formatter *)
(* ===================================================================== *)

Section TextFacts.

Import Text.

Lemma lstrip_involutive s : lstrip (lstrip s) = lstrip s.
Proof.
  induction s as [|c s IH]; simpl; [reflexivity|].
  destruct (is_space c) eqn:E; [exact IH|]. simpl. by rewrite E.
Qed.

Lemma rstrip_involutive s : rstrip (rstrip s) = rstrip s.
Proof.
  induction s as [|c s IH]; simpl; [reflexivity|].
  destruct (rstrip s) as [|d r] eqn:E.
  - destruct (is_space c) eqn:Ec; simpl; [reflexivity|]. by rewrite Ec.
  - simpl in IH |- *.
    destruct (rstrip r) as [|d' r'] eqn:Er.
    + destruct (is_space d); [discriminate|]. by rewrite IH.
    + by rewrite IH.
Qed.

Lemma lstrip_no_leading_space s : no_leading_space (lstrip s).
Proof.
  induction s as [|c s IH]; simpl; [exact I|].
  destruct (is_space c) eqn:E; [exact IH | exact E].
Qed.

Lemma lstrip_fixed s : no_leading_space s -> lstrip s = s.
Proof. destruct s as [|c s]; simpl; [reflexivity|]. by intros ->. Qed.

Lemma rstrip_no_leading_space s :
  no_leading_space s -> no_leading_space (rstrip s).
Proof.
  destruct s as [|c s]; simpl; [exact id|]. intros Hc.
  destruct (rstrip s); [rewrite Hc|]; exact Hc.
Qed.

Lemma strip_involutive s : strip (strip s) = strip s.
Proof.
  unfold strip.
  rewrite (lstrip_fixed (rstrip (lstrip s))).
  - apply rstrip_involutive.
  - apply rstrip_no_leading_space, lstrip_no_leading_space.
Qed.

Lemma prefix_app_l a b t :
  String.prefix (a +:+ b) t = true -> String.prefix a t = true.
Proof.
  revert t. induction a as [|c a IH]; intros t; simpl;
    [intros _; by destruct t|].
  destruct t as [|d t]; simpl; [discriminate|].
  destruct (ascii_dec c d); [apply IH | discriminate].
Qed.

Lemma lacks_contains p s : lacks p s <-> contains p s = false.
Proof.
  unfold lacks, contains. destruct (find p s); split; congruence.
Qed.

Lemma find_cons p c s :
  find p (String c s)
  = if startswith p (String c s) then Some 0 else option_map S (find p s).
Proof. reflexivity. Qed.

Lemma find_nil p :
  find p EmptyString = if startswith p EmptyString then Some 0 else None.
Proof. reflexivity. Qed.

Lemma lacks_cons p c s :
  lacks p (String c s) -> startswith p (String c s) = false /\ lacks p s.
Proof.
  unfold lacks. rewrite find_cons.
  destruct (startswith p (String c s)); [discriminate|].
  destruct (find p s); [discriminate|]. by split.
Qed.

Lemma lacks_head p s : lacks p s -> startswith p s = false.
Proof.
  unfold lacks. destruct s as [|c s]; rewrite ?find_cons, ?find_nil;
    destruct (startswith p _); congruence.
Qed.

Lemma lacks_longer a b s : lacks a s -> lacks (a +:+ b) s.
Proof.
  unfold lacks. induction s as [|c s IH]; rewrite ?find_cons, ?find_nil.
  - destruct (startswith a EmptyString) eqn:Ea; [discriminate|]. intros _.
    destruct (startswith (a +:+ b) EmptyString) eqn:Eab; [|reflexivity].
    apply prefix_app_l in Eab. unfold startswith in Ea. congruence.
  - destruct (startswith a (String c s)) eqn:Ea; [discriminate|].
    destruct (find a s) eqn:Ef; [discriminate|]. intros _.
    destruct (startswith (a +:+ b) (String c s)) eqn:Eab.
    + apply prefix_app_l in Eab. unfold startswith in Ea. congruence.
    + by rewrite IH.
Qed.

Lemma lacks_lstrip p s : lacks p s -> lacks p (lstrip s).
Proof.
  induction s as [|c s IH]; simpl; [exact id|]. intros H.
  destruct (is_space c); [|exact H].
  apply IH. by apply lacks_cons in H as [_ H].
Qed.

(** Where no match starts, [replace_spans] copies the text. *)
Lemma replace_spans_lacks p span s :
  (forall t, startswith p t = false -> span t = None) ->
  lacks p s -> replace_spans span 0 s = s.
Proof.
  intros Hspan. induction s as [|c s IH]; simpl; [reflexivity|]. intros H.
  apply lacks_cons in H as [Hh Ht].
  rewrite (Hspan _ Hh). by rewrite IH.
Qed.

End TextFacts.

Section TextPrefixFacts.

Import Text.

Lemma prefix_weaken p a b :
  String.prefix p a = true -> String.prefix p (a +:+ b) = true.
Proof.
  revert a. induction p as [|c p IH]; intros a; simpl.
  - intros _. by destruct (a +:+ b).
  - destruct a as [|d a]; simpl; [discriminate|].
    destruct (ascii_dec c d); [apply IH | discriminate].
Qed.

Lemma lacks_prefix p a b : lacks p (a +:+ b) -> lacks p a.
Proof.
  unfold lacks. induction a as [|c a IH].
  - change (EmptyString +:+ b) with b.
    intros H. apply lacks_head in H. rewrite find_nil.
    destruct (startswith p EmptyString) eqn:E; [|reflexivity].
    apply (prefix_weaken _ _ b) in E.
    change (EmptyString +:+ b) with b in E.
    unfold startswith in H. congruence.
  - change (String c a +:+ b) with (String c (a +:+ b)).
    intros H. apply lacks_cons in H as [Hh Ht]. rewrite find_cons.
    destruct (startswith p (String c a)) eqn:E.
    + apply (prefix_weaken _ _ b) in E.
      change (String c a +:+ b) with (String c (a +:+ b)) in E.
      unfold startswith in Hh. congruence.
    + unfold lacks in Ht. by rewrite (IH Ht).
Qed.

Lemma rstrip_is_prefix s : exists b, s = rstrip s +:+ b.
Proof.
  induction s as [|c s [b IH]]; [by exists EmptyString|].
  change (rstrip (String c s)) with
    (match rstrip s with
     | EmptyString => if is_space c then EmptyString else String c EmptyString
     | String d r => String c (String d r)
     end).
  destruct (rstrip s) as [|d r] eqn:E.
  - destruct (is_space c).
    + by exists (String c s).
    + exists s. reflexivity.
  - exists b.
    change (String c (String d r) +:+ b) with (String c (String d r +:+ b)).
    by rewrite <- IH.
Qed.

Lemma lacks_strip p s : lacks p s -> lacks p (strip s).
Proof.
  intros H. unfold strip. apply lacks_lstrip in H.
  destruct (rstrip_is_prefix (lstrip s)) as [b Hb].
  rewrite Hb in H. by apply lacks_prefix in H.
Qed.

End TextPrefixFacts.

Section FormatterFacts.

Import Text Formatter.

Variable json_loads : string -> loaded.
Variable compile_template : string -> option (string -> string).

Abbreviation format := (parse_and_format_response json_loads compile_template).


Lemma tag_lacks tail s : lacks opener s -> lacks (opener +:+ tail) s.
Proof. apply lacks_longer. Qed.

Lemma tag_not_at_head tail t :
  startswith opener t = false -> startswith (opener +:+ tail) t = false.
Proof.
  intros H. destruct (startswith (opener +:+ tail) t) eqn:E; [|reflexivity].
  apply prefix_app_l in E. unfold startswith in H. congruence.
Qed.

Lemma search_group_lacks opening closing s :
  lacks opening s -> search_group opening closing s = None.
Proof. unfold lacks, search_group. by intros ->. Qed.

Lemma replace_tag_lacks tail r s :
  lacks opener s -> replace (opener +:+ tail) r s = s.
Proof.
  intros H. unfold replace. apply (replace_spans_lacks opener); [|exact H].
  intros t Ht. by rewrite (tag_not_at_head tail t Ht).
Qed.

Lemma sub_lazy_lacks tail closing f s :
  lacks opener s -> sub_lazy (opener +:+ tail) closing f s = s.
Proof.
  intros H. unfold sub_lazy. apply (replace_spans_lacks opener); [|exact H].
  intros t Ht. unfold lazy_span. by rewrite (tag_not_at_head tail t Ht).
Qed.

Lemma strip_markers_lacks s : lacks opener s -> strip_markers s = s.
Proof.
  intros H. unfold strip_markers.
  apply (replace_spans_lacks opener); [|exact H].
  intros t Ht. unfold marker_span. fold opener. by rewrite Ht.
Qed.

Lemma remove_leftover_markers_lacks s :
  lacks opener s -> remove_leftover_markers s = strip s.
Proof.
  intros H. unfold remove_leftover_markers. cbv zeta.
  change MARKDOWN_TABLE with (opener +:+ "MARKDOWN_TABLE>>").
  change END_MARKDOWN_TABLE with (opener +:+ "END_MARKDOWN_TABLE>>").
  change TABLE_JSON with (opener +:+ "TABLE_JSON>>").
  rewrite (replace_tag_lacks "MARKDOWN_TABLE>>" EmptyString s H).
  rewrite (replace_tag_lacks "END_MARKDOWN_TABLE>>" EmptyString s H).
  rewrite (sub_lazy_lacks "TABLE_JSON>>" END_TABLE_JSON _ s H).
  by rewrite strip_markers_lacks.
Qed.

(** On a text without the opening pair the formatter only strips. *)
Lemma format_lacks s : lacks opener s -> format s = Some (strip s).
Proof.
  intros H. unfold parse_and_format_response.
  rewrite (search_group_lacks MARKDOWN_TABLE)
    by apply (tag_lacks "MARKDOWN_TABLE>>" s H).
  rewrite (search_group_lacks TABLE_JSON)
    by apply (tag_lacks "TABLE_JSON>>" s H).
  by rewrite remove_leftover_markers_lacks.
Qed.

(** Whatever the formatter returns has been stripped. *)
Lemma format_stripped x y : format x = Some y -> strip y = y.
Proof.
  unfold parse_and_format_response, remove_leftover_markers.
  repeat match goal with
    | |- context [match ?o with _ => _ end] => destruct o
    end;
    intros H; try discriminate H; injection H as <-; apply strip_involutive.
Qed.

Lemma prefix_split p : forall t,
  String.prefix p t = true -> exists r, t = p +:+ r.
Proof.
  induction p as [|c p IH]; intros t H; [by exists t|].
  destruct t as [|d t]; simpl in H; [discriminate|].
  destruct (ascii_dec c d) as [->|]; [|discriminate].
  destruct (IH t H) as [r ->]. by exists r.
Qed.

(** The three tags that the formatter looks for are complete markers. *)
Lemma tag_is_marker t :
  startswith MARKDOWN_TABLE t = true
  \/ startswith END_MARKDOWN_TABLE t = true
  \/ startswith TABLE_JSON t = true ->
  marker_span t <> None.
Proof.
  intros [H|[H|H]]; apply prefix_split in H as [r ->];
    destruct r; vm_compute; discriminate.
Qed.

Lemma has_marker_cons c s :
  has_marker (String c s) = false ->
  marker_span (String c s) = None /\ has_marker s = false.
Proof.
  simpl has_marker. destruct (marker_span (String c s)); [discriminate|].
  by split.
Qed.

Lemma no_marker_lacks p s :
  (forall t, startswith p t = true -> marker_span t <> None) ->
  has_marker s = false -> lacks p s.
Proof.
  intros Hp. unfold lacks. induction s as [|c s IH]; intros H.
  - rewrite find_nil. destruct (startswith p EmptyString) eqn:E;
      [|reflexivity].
    by apply Hp in E.
  - apply has_marker_cons in H as [Hh Ht]. rewrite find_cons.
    destruct (startswith p (String c s)) eqn:E; [by apply Hp in E|].
    by rewrite (IH Ht).
Qed.

Lemma no_marker_strip_markers s :
  has_marker s = false -> strip_markers s = s.
Proof.
  unfold strip_markers. induction s as [|c s IH]; intros H; [reflexivity|].
  apply has_marker_cons in H as [Hh Ht].
  simpl replace_spans. rewrite Hh. by rewrite (IH Ht).
Qed.

Lemma lacks_opener_no_marker s : lacks opener s -> has_marker s = false.
Proof.
  induction s as [|c s IH]; intros H; [reflexivity|].
  apply lacks_cons in H as [Hh Ht]. simpl has_marker.
  unfold marker_span. fold opener. rewrite Hh. by apply IH.
Qed.

(** On a text without complete marker the formatter only strips. *)
Lemma format_no_marker s : has_marker s = false -> format s = Some (strip s).
Proof.
  intros H.
  assert (Hmd : lacks MARKDOWN_TABLE s)
    by (apply no_marker_lacks; [intros t Ht; apply tag_is_marker|]; auto).
  assert (Hend : lacks END_MARKDOWN_TABLE s)
    by (apply no_marker_lacks; [intros t Ht; apply tag_is_marker|]; auto).
  assert (Hjs : lacks TABLE_JSON s)
    by (apply no_marker_lacks; [intros t Ht; apply tag_is_marker|]; auto).
  unfold parse_and_format_response.
  rewrite (search_group_lacks MARKDOWN_TABLE _ s Hmd).
  rewrite (search_group_lacks TABLE_JSON _ s Hjs).
  f_equal. unfold remove_leftover_markers. cbv zeta.
  assert (E1 : replace MARKDOWN_TABLE EmptyString s = s).
  { unfold replace. apply (replace_spans_lacks MARKDOWN_TABLE); [|exact Hmd].
    by intros t ->. }
  rewrite E1.
  assert (E2 : replace END_MARKDOWN_TABLE EmptyString s = s).
  { unfold replace.
    apply (replace_spans_lacks END_MARKDOWN_TABLE); [|exact Hend].
    by intros t ->. }
  rewrite E2.
  assert (E3 : sub_lazy TABLE_JSON END_TABLE_JSON (fun _ => EmptyString) s
               = s).
  { unfold sub_lazy. apply (replace_spans_lacks TABLE_JSON); [|exact Hjs].
    intros t Ht. unfold lazy_span. by rewrite Ht. }
  rewrite E3. by rewrite no_marker_strip_markers.
Qed.

(** C6, as amended.  The formatter is idempotent on every input whose
    formatted text holds no complete marker (two [<], a run without [>],
    two [>]): formatting that text again returns it unchanged.  A formatted
    text that holds a stray [<<] or a truncated marker is within this; so
    is every formatted text without [<<], and in particular an input
    without [<<] is formatted to its stripped text and formatting that
    again changes nothing. *)
Theorem format_idempotent_without_marker (x y : string) :
  format x = Some y ->
  (has_marker y = false -> format y = Some y)
  /\ (contains opener y = false -> format y = Some y)
  /\ (contains opener x = false -> y = strip x /\ format y = Some y).
Proof.
  intros Hx.
  assert (Hfix : has_marker y = false -> format y = Some y).
  { intros Hy. rewrite (format_no_marker y Hy). f_equal.
    by apply (format_stripped x). }
  split; [exact Hfix|]. split.
  - intros Hc. by apply Hfix, lacks_opener_no_marker, lacks_contains.
  - intros Hc. apply lacks_contains in Hc.
    rewrite (format_lacks x Hc) in Hx. injection Hx as <-.
    split; [reflexivity|].
    by apply Hfix, lacks_opener_no_marker, lacks_strip.
Qed.

(** An input without [<<] is always in the scope of the theorem above. *)
Lemma format_plain_text x :
  contains opener x = false ->
  format x = Some (strip x) /\ contains opener (strip x) = false.
Proof.
  intros Hc. apply lacks_contains in Hc. split; [by apply format_lacks|].
  by apply lacks_contains, lacks_strip.
Qed.

(** A marker that only appears once another one has been removed survives
    the first pass and is removed by the second. *)
Lemma format_leaves_marker :
  format "<<x><<a>>>" = Some "<<x>>" /\ format "<<x>>" = Some EmptyString.
Proof. split; reflexivity. Qed.

End FormatterFacts.

(* ===================================================================== *)
(** * The streaming pipeline *)
(* ===================================================================== *)

Section StringAppend.

Lemma append_cons (x : ascii) (a b : string) :
  String x a +:+ b = String x (a +:+ b).
Proof. reflexivity. Qed.

Lemma append_assoc (a b c : string) : (a +:+ b) +:+ c = a +:+ (b +:+ c).
Proof.
  induction a as [|x a IH]; [reflexivity|].
  rewrite !append_cons. by rewrite IH.
Qed.

Lemma append_empty_r (a : string) : a +:+ EmptyString = a.
Proof.
  induction a as [|x a IH]; [reflexivity|].
  rewrite append_cons. by rewrite IH.
Qed.

Lemma length_append (a b : string) :
  String.length (a +:+ b) = String.length a + String.length b.
Proof.
  induction a as [|x a IH]; [reflexivity|].
  rewrite append_cons. simpl. by rewrite IH.
Qed.

Lemma length_take (n : nat) (s : string) :
  String.length (Text.take n s) = Nat.min n (String.length s).
Proof.
  revert s. induction n as [|n IH]; intros [|c s]; simpl; try reflexivity.
  by rewrite IH.
Qed.

Lemma prefix_append (a b : string) : String.prefix a (a +:+ b) = true.
Proof.
  induction a as [|x a IH]; [by destruct b|].
  rewrite append_cons. simpl.
  destruct (ascii_dec x x); [exact IH | contradiction].
Qed.

Lemma prefix_append_same (c a b : string) :
  String.prefix (c +:+ a) (c +:+ b) = String.prefix a b.
Proof.
  induction c as [|x c IH]; [reflexivity|].
  rewrite !append_cons. simpl.
  destruct (ascii_dec x x); [exact IH | contradiction].
Qed.

(** The raw text read up to a chunk is extended by the next chunk. *)
Lemma joined_grows (chunks : list string) : forall i,
  String.prefix (joined (firstn i chunks)) (joined (firstn (S i) chunks)) = true.
Proof.
  induction chunks as [|c chunks IH]; intros [|i]; simpl; try reflexivity.
  - by destruct (c +:+ EmptyString).
  - rewrite prefix_append_same. apply IH.
Qed.





End StringAppend.

Section StreamingFacts.

Import Chatbot.

Variable rt : runtime.

Abbreviation format := (parse_and_format_response rt).

Lemma single_done c s : ends_with_only_done (final_event c s).
Proof. eexists [], _. by repeat split. Qed.

Lemma stream_loop_ends question context docs chunks : forall acc,
  ends_with_only_done (stream_loop rt question context docs acc chunks).
Proof.
  induction chunks as [|c chunks IH]; intros acc; simpl.
  - destruct (format acc); apply single_done.
  - destruct (format (acc +:+ c)) as [p|]; [|apply single_done].
    destruct (IH (acc +:+ c)) as (init & final & -> & Hinit & Hfinal).
    exists ({| content := p; sources := EmptyString; done := false |} :: init),
      final.
    split; [reflexivity|]. split; [|exact Hfinal].
    constructor; [reflexivity | exact Hinit].
Qed.

Lemma query_streaming_ends question :
  ends_with_only_done (query_streaming rt question).
Proof.
  unfold query_streaming. cbv zeta.
  destruct (_ || _); [apply single_done|].
  destruct (_ <? _); [apply single_done|].
  destruct (any_in DATE_PHRASES _); [apply single_done|].
  destruct (any_in TIME_PHRASES _); [apply single_done|].
  destruct (_ && _); [apply single_done|].
  destruct (get_relevant_documents rt question) as [[|d docs]|];
    [apply single_done | | apply single_done].
  destruct (filter_relevant_documents (top_k rt) (d :: docs));
    [apply single_done|].
  destruct (String.length _ <? 100); [apply single_done|].
  apply stream_loop_ends.
Qed.







End StreamingFacts.

Section StreamingExamples.

Import Chatbot.



(** A stream without [<<]: three chunks give four events, each text
    extending the one before. *)
Example plain_stream_texts :
  forall json_loads compile_template,
    map content
      (stream_loop
         (sample_runtime json_loads compile_template split_marker_backend)
         "Which programmes are offered?" EmptyString [] EmptyString
         ["Hello "; "wor"; "ld "])
    = ["Hello"; "Hello wor"; "Hello world"; "Hello world"].
Proof. intros. vm_compute. reflexivity. Qed.

(** The HTTP stream built from the events of the split marker has two
    events with [done] set. *)
Lemma http_stream_two_done :
  forall json_loads compile_template,
    map ApiStream.done
      (ApiStream.generate "session_1"
         (split_marker_events json_loads compile_template))
    = [false; false; true; true].
Proof. intros. vm_compute. reflexivity. Qed.

End StreamingExamples.

(* ===================================================================== *)
(** * The retrying stream of the generation adapter *)
(* ===================================================================== *)

Section LlmFacts.

Import Llm.

Variable model : backend.
Variable prompt : string.
Variable max_retries : nat.


Lemma delivered_by_S a n :
  delivered_by model prompt a (S n)
  = delivered model prompt a ++ delivered_by model prompt (S a) n.
Proof. reflexivity. Qed.

Lemma retry_loop_completes : forall remaining attempt j,
  attempt + remaining = max_retries ->
  j < remaining ->
  (forall i, attempt <= i < attempt + j -> completes (model prompt i) = false) ->
  completes (model prompt (attempt + j)) = true ->
  retry_loop model prompt max_retries attempt remaining
  = delivered_by model prompt attempt (S j).
Proof.
  induction remaining as [|remaining IH]; intros attempt j Hn Hj Hfail Hok;
    [lia|].
  simpl retry_loop. rewrite delivered_by_S. fold (delivered model prompt attempt). f_equal.
  destruct j as [|j].
  - rewrite Nat.add_0_r in Hok. by rewrite Hok.
  - rewrite (Hfail attempt) by lia.
    destruct (Nat.eqb_spec attempt (max_retries - 1)) as [He|_]; [lia|].
    apply IH; [lia | lia | | ].
    + intros i Hi. apply Hfail. lia.
    + by replace (S attempt + j) with (attempt + S j) by lia.
Qed.

Lemma retry_loop_exhausted : forall remaining attempt,
  attempt + remaining = max_retries ->
  0 < remaining ->
  (forall i, attempt <= i < max_retries -> completes (model prompt i) = false) ->
  retry_loop model prompt max_retries attempt remaining
  = delivered_by model prompt attempt remaining ++ [TROUBLE].
Proof.
  induction remaining as [|remaining IH]; intros attempt Hn Hpos Hfail;
    [lia|].
  simpl retry_loop. rewrite delivered_by_S. fold (delivered model prompt attempt).
  rewrite <- List.app_assoc. f_equal.
  rewrite (Hfail attempt) by lia.
  destruct (Nat.eqb_spec attempt (max_retries - 1)) as [He|Hne].
  - assert (remaining = 0) as -> by lia. reflexivity.
  - apply IH; [lia | lia |]. intros i Hi. apply Hfail. lia.
Qed.

End LlmFacts.

Section LlmClaims.

Import Llm.

(** C8, as amended.  For a non-blank prompt the adapter hands over, in
    order, the non-empty chunks of every attempt up to and including the
    first attempt that completes; what a failed attempt has delivered is
    never retracted, and the next attempt's chunks follow it.  If all
    [max_retries] attempts fail, the fixed apology follows whatever has
    been delivered, whether or not any chunk was. *)
Theorem stream_retries_after_partial_output
        (model : backend) (prompt : string) (max_retries : nat) :
  Text.nonempty (Text.strip prompt) = true ->
  (forall k,
      k < max_retries ->
      (forall i, i < k -> completes (model (truncate prompt) i) = false) ->
      completes (model (truncate prompt) k) = true ->
      stream max_retries model prompt
      = delivered_by model (truncate prompt) 0 (S k))
  /\ (0 < max_retries ->
      (forall i, i < max_retries ->
                 completes (model (truncate prompt) i) = false) ->
      stream max_retries model prompt
      = delivered_by model (truncate prompt) 0 max_retries ++ [TROUBLE]).
Proof.
  intros Hp.
  assert (Hs : stream max_retries model prompt
               = retry_loop model (truncate prompt) max_retries 0 max_retries).
  { unfold stream. rewrite Hp.
    destruct prompt; [discriminate Hp | reflexivity]. }
  rewrite Hs. split.
  - intros k Hk Hfail Hok.
    apply (retry_loop_completes model (truncate prompt) max_retries
             max_retries 0 k); [reflexivity | exact Hk | | exact Hok].
    intros i Hi. apply Hfail. lia.
  - intros Hpos Hfail.
    apply retry_loop_exhausted; [reflexivity | exact Hpos |].
    intros i Hi. apply Hfail. lia.
Qed.

Lemma stream_retries_after_partial_output_witness :
  stream 3 second_attempt_completes "What are the fees?" = ["Hel"; "Hel"; "lo"]
  /\ stream 3 breaks_after_hello "What are the fees?" = ["Hello"; TROUBLE].
Proof.
  destruct (stream_retries_after_partial_output
              second_attempt_completes "What are the fees?" 3 eq_refl)
    as [Hok _].
  destruct (stream_retries_after_partial_output
              breaks_after_hello "What are the fees?" 3 eq_refl)
    as [_ Hbad].
  split.
  - rewrite (Hok 1); [reflexivity | lia | | reflexivity].
    intros i Hi. assert (i = 0) as -> by lia. reflexivity.
  - rewrite Hbad; [reflexivity | lia | reflexivity].
Defined.

(** C8 as stated fails: one chunk has been delivered when the backend
    breaks, and the apology still reaches the caller; and after a retry the
    text already delivered is delivered again. *)
Lemma apology_after_delivered_chunk :
  delivered breaks_after_hello "What are the fees?" 0 = ["Hello"]
  /\ completes (breaks_after_hello "What are the fees?" 0) = false
  /\ stream 3 breaks_after_hello "What are the fees?" = ["Hello"; TROUBLE]
  /\ In TROUBLE (stream 3 breaks_after_hello "What are the fees?")
  /\ stream 3 second_attempt_completes "What are the fees?"
     = ["Hel"; "Hel"; "lo"].
Proof. repeat split. right. left. reflexivity. Qed.

End LlmClaims.

(* ===================================================================== *)
(** * Source citations *)
(* ===================================================================== *)

Section SourcesFacts.

Import Chatbot.


Lemma insert_by_score_perm d l : Permutation (d :: l) (insert_by_score d l).
Proof.
  induction l as [|e l IH]; simpl; [reflexivity|].
  destruct (score e <=? score d); [reflexivity|].
  rewrite perm_swap. by constructor.
Qed.

Lemma sort_by_score_perm l : Permutation l (sort_by_score l).
Proof.
  induction l as [|d l IH]; simpl; [reflexivity|].
  rewrite <- insert_by_score_perm. by constructor.
Qed.

Lemma insert_by_score_sorted d l :
  StronglySorted outranks l -> StronglySorted outranks (insert_by_score d l).
Proof.
  induction 1 as [|e l Hs IH He]; simpl.
  - constructor; constructor.
  - destruct (Nat.leb_spec (score e) (score d)) as [Hle|Hlt].
    + constructor; [by constructor|].
      constructor; [exact Hle|].
      eapply List.Forall_impl; [|exact He].
      unfold outranks. intros x Hx. lia.
    + constructor; [exact IH|].
      eapply Permutation_Forall; [apply insert_by_score_perm|].
      constructor; [unfold outranks; lia | exact He].
Qed.

Lemma sort_by_score_sorted l : StronglySorted outranks (sort_by_score l).
Proof.
  induction l as [|d l IH]; simpl; [constructor|].
  by apply insert_by_score_sorted.
Qed.

Lemma sorted_firstn n l :
  StronglySorted outranks l -> StronglySorted outranks (firstn n l).
Proof.
  intros H. revert n. induction H as [|e l Hs IH He]; intros [|n]; simpl;
    try constructor; [apply IH|].
  apply List.Forall_forall. intros x Hx.
  apply (proj1 (List.Forall_forall _ _) He).
  rewrite <- (firstn_skipn n l). apply in_or_app. by left.
Qed.

Lemma sorted_split n l :
  StronglySorted outranks l ->
  forall d r, In d (firstn n l) -> In r (skipn n l) -> outranks d r.
Proof.
  intros H. revert n. induction H as [|e l Hs IH He]; intros [|n] d r; simpl;
    try contradiction.
  intros [<-|Hd] Hr.
  - apply (proj1 (List.Forall_forall _ _) He).
    rewrite <- (firstn_skipn n l). apply in_or_app. by right.
  - by apply (IH n).
Qed.

Lemma display_title_short t :
  String.length t <= 60 -> display_title t = t.
Proof.
  intros H. unfold display_title.
  destruct (Nat.ltb_spec 60 (String.length t)); [lia | reflexivity].
Qed.

Lemma display_title_long t :
  60 < String.length t ->
  display_title t = Text.take 57 t +:+ "..."
  /\ String.length (display_title t) = 60.
Proof.
  intros H. unfold display_title.
  destruct (Nat.ltb_spec 60 (String.length t)); [|lia].
  split; [reflexivity|].
  rewrite length_append, length_take.
  change (String.length "...") with 3. lia.
Qed.

Lemma source_line_omitted i d :
  url d = None \/ url d = Some EmptyString \/ url d = Some "Unknown" ->
  source_line i d = EmptyString.
Proof. unfold source_line. by intros [->|[->| ->]]. Qed.

Lemma source_line_shown i d u :
  url d = Some u -> u <> EmptyString -> u <> "Unknown" ->
  source_line i d
  = string_of_nat i +:+ ". ["
    +:+ display_title (get (title d) "University Information")
    +:+ "](" +:+ u +:+ ")" +:+ Text.newline.
Proof.
  intros Hu Hne Hun. unfold source_line. rewrite Hu. simpl.
  destruct u as [|c u]; [contradiction|]. simpl Text.nonempty.
  apply String.eqb_neq in Hun. by rewrite Hun.
Qed.

Lemma concat_cons x xs :
  String.concat EmptyString (x :: xs) = x +:+ String.concat EmptyString xs.
Proof. destruct xs; simpl; [by rewrite append_empty_r | reflexivity]. Qed.

Lemma source_lines_numbered ds : forall i,
  source_lines i ds
  = String.concat EmptyString (imap (fun k d => source_line (i + k) d) ds).
Proof.
  induction ds as [|d ds IH]; intros i; [reflexivity|].
  rewrite imap_cons, concat_cons. simpl source_lines.
  rewrite Nat.add_0_r, (IH (S i)). f_equal. f_equal.
  apply imap_ext. intros k x _. simpl. f_equal. lia.
Qed.

(** C9, as amended.  For every non-empty list of retrieved passages: a
    passage scores 2 if its title or URL (or, without URL, its source)
    contains "srmist" in any case, plus 1 if its title is longer than 20
    characters and is not "University Information", plus 1 if its content
    is longer than 500 characters; the selected passages are the first 3
    (or fewer) of the passages in descending order of score, every selected
    passage scoring at least as high as every passage left out; the output
    is the header followed by one line for each selected passage, in the
    order of the selection, the line of the passage at place 1, 2 or 3
    beginning with that number; the line is empty when the URL is missing,
    empty or "Unknown", and otherwise reads number, title in brackets and
    URL in parentheses; a title longer than 60 characters is cut to its
    first 57 characters followed by "...", and a title of at most 60
    characters is shown in full. *)
Theorem format_sources_ranked_top3 (docs : list document) :
  docs <> [] ->
  format_sources docs
  = sources_header
    +:+ String.concat EmptyString
          (imap (fun k d => source_line (S k) d) (selected_docs docs))
  /\ map string_of_nat [1; 2; 3] = ["1"; "2"; "3"]
  /\ List.length (selected_docs docs) = Nat.min 3 (List.length docs)
  /\ StronglySorted outranks (selected_docs docs)
  /\ (exists rest,
        Permutation docs (selected_docs docs ++ rest)
        /\ forall d r, In d (selected_docs docs) -> In r rest -> outranks d r)
  /\ (forall d,
        score d
        = (if Text.contains "srmist" (Text.lower (get (title d) EmptyString))
              || Text.contains "srmist" (Text.lower (url_or_source d))
           then 2 else 0)
          + (if (20 <? String.length (get (title d) EmptyString))
                && negb (String.eqb (get (title d) EmptyString)
                                    "University Information")
             then 1 else 0)
          + (if 500 <? String.length (page_content d) then 1 else 0))
  /\ (forall i d,
        url d = None \/ url d = Some EmptyString \/ url d = Some "Unknown" ->
        source_line i d = EmptyString)
  /\ (forall i d u,
        url d = Some u -> u <> EmptyString -> u <> "Unknown" ->
        source_line i d
        = string_of_nat i +:+ ". ["
          +:+ display_title (get (title d) "University Information")
          +:+ "](" +:+ u +:+ ")" +:+ Text.newline)
  /\ (forall t, String.length t <= 60 -> display_title t = t)
  /\ (forall t, 60 < String.length t ->
                display_title t = Text.take 57 t +:+ "..."
                /\ String.length (display_title t) = 60).
Proof.
  intros Hne.
  split.
  { destruct docs as [|d docs]; [contradiction|]. unfold format_sources.
    by rewrite (source_lines_numbered _ 1). }
  split; [reflexivity|].
  split.
  { unfold selected_docs. rewrite List.length_firstn.
    rewrite <- (Permutation_length (sort_by_score_perm docs)). lia. }
  split; [apply sorted_firstn, sort_by_score_sorted|].
  split.
  { exists (skipn (Nat.min 3 (List.length docs)) (sort_by_score docs)).
    unfold selected_docs. split.
    - rewrite firstn_skipn. apply sort_by_score_perm.
    - apply sorted_split, sort_by_score_sorted. }
  split; [reflexivity|].
  split; [apply source_line_omitted|].
  split; [apply source_line_shown|].
  split; [apply display_title_short | apply display_title_long].
Qed.

End SourcesFacts.

Section SourcesExamples.

Import Chatbot.

Example format_sources_five :
  map score [hostel_doc; fees_doc; admissions_doc; untitled_doc; placement_doc]
  = [0; 3; 2; 0; 1]
  /\ selected_docs
       [hostel_doc; fees_doc; admissions_doc; untitled_doc; placement_doc]
     = [fees_doc; admissions_doc; placement_doc]
  /\ format_sources
       [hostel_doc; fees_doc; admissions_doc; untitled_doc; placement_doc]
     = sources_header
       +:+ "1. [SRM Institute of Science and Technology Hostel Accommodat...](https://www.srmist.edu.in/fees.pdf)"
       +:+ Text.newline
       +:+ "3. [Placement record of the university](https://example.org/placement.pdf)"
       +:+ Text.newline.
Proof. repeat split. Qed.

Lemma format_sources_ranked_top3_witness :
  selected_docs [untitled_doc; hostel_doc; admissions_doc]
  = [admissions_doc; untitled_doc; hostel_doc]
  /\ format_sources [untitled_doc; hostel_doc; admissions_doc]
     = sources_header +:+ "3. [Hostel](https://example.org/hostel.pdf)"
       +:+ Text.newline.
Proof.
  destruct (format_sources_ranked_top3
              [untitled_doc; hostel_doc; admissions_doc])
    as (Hf & _).
  - discriminate.
  - split; [reflexivity|]. rewrite Hf. reflexivity.
Defined.

(** C9 as stated fails: a title of 58 characters is longer than 57 and is
    shown in full, not cut to 57 characters and an ellipsis. *)
Lemma title_of_58_shown_in_full :
  String.length title58 = 58
  /\ format_sources [title58_doc]
     = sources_header +:+ "1. [" +:+ title58
       +:+ "](https://www.srmist.edu.in/fees.pdf)" +:+ Text.newline
  /\ format_sources [title58_doc]
     <> sources_header +:+ "1. [" +:+ (Text.take 57 title58 +:+ "...")
        +:+ "](https://www.srmist.edu.in/fees.pdf)" +:+ Text.newline.
Proof. repeat split. vm_compute. discriminate. Qed.

End SourcesExamples.

Section FormatterExamples.

Import Formatter.

Lemma format_idempotent_without_marker_witness :
  parse_and_format_response (fun _ => JSONDecodeError) (fun _ => None)
    "See <<MARKDOWN_"
  = Some "See <<MARKDOWN_"
  /\ parse_and_format_response (fun _ => JSONDecodeError) (fun _ => None)
       "cout << x;"
     = Some "cout << x;"
  /\ parse_and_format_response (fun _ => JSONDecodeError) (fun _ => None)
       "See | a | below"
     = Some "See | a | below".
Proof.
  destruct (format_idempotent_without_marker
              (fun _ => JSONDecodeError) (fun _ => None)
              "  See <<a>><<MARKDOWN_  " "See <<MARKDOWN_" eq_refl)
    as (H1 & _).
  destruct (format_idempotent_without_marker
              (fun _ => JSONDecodeError) (fun _ => None)
              " cout << x; " "cout << x;" eq_refl)
    as (H2 & _).
  destruct (format_idempotent_without_marker
              (fun _ => JSONDecodeError) (fun _ => None)
              "  See <<MARKDOWN_TABLE>> | a | <<END_MARKDOWN_TABLE>> below  "
              "See | a | below" eq_refl)
    as (_ & H3 & _).
  split; [by apply H1|]. split; [by apply H2 | by apply H3].
Defined.

(** C6 as stated fails: formatting ["<<x><<a>>>"] gives ["<<x>>"], and
    formatting that once more gives the empty text. *)
Lemma format_twice_differs :
  (forall json_loads compile_template,
      parse_and_format_response json_loads compile_template "<<x><<a>>>"
      = Some "<<x>>")
  /\ (forall json_loads compile_template,
         parse_and_format_response json_loads compile_template "<<x>>"
         = Some EmptyString)
  /\ (forall json_loads compile_template,
         parse_and_format_response json_loads compile_template "<<x>>"
         <> Some "<<x>>").
Proof. repeat split. intros j c. vm_compute. discriminate. Qed.

(** The same through the table path: a table cell that holds a marker. *)
Example format_twice_differs_table :
  forall json_loads compile_template,
    parse_and_format_response json_loads compile_template
      "Fees <<MARKDOWN_TABLE>>| <<b>> |<<END_MARKDOWN_TABLE>>"
    = Some "Fees | <<b>> |"
    /\ parse_and_format_response json_loads compile_template "Fees | <<b>> |"
       = Some "Fees |  |".
Proof. intros. split; reflexivity. Qed.

End FormatterExamples.

(* ===================================================================== *)
(** * Further properties: the session store and the gate of api.py *)
(* ===================================================================== *)

Section StoreFacts.

Implicit Types (st : gmap string Api.session) (sid other : string).

(** X1.  [get_or_create_session] returns the session stored under the id
    after the call; a session already stored is returned as it is and the
    store is not touched; an unknown id gets a new session with both
    counters at 0 and no e-mail; no other id is affected; and a second call
    returns the same session and changes nothing. *)
Theorem get_or_create_session_lookup now now' sid st :
  fst (Api.get_or_create_session now sid st) !! sid
  = Some (snd (Api.get_or_create_session now sid st))
  /\ (forall s, st !! sid = Some s ->
        Api.get_or_create_session now sid st = (st, s))
  /\ (st !! sid = None ->
      snd (Api.get_or_create_session now sid st) = Api.new_session now)
  /\ (forall other, other <> sid ->
        fst (Api.get_or_create_session now sid st) !! other = st !! other)
  /\ Api.get_or_create_session now' sid
       (fst (Api.get_or_create_session now sid st))
     = Api.get_or_create_session now sid st.
Proof.
  unfold Api.get_or_create_session.
  destruct (st !! sid) as [s|] eqn:E; simpl.
  - split; [exact E|]. split; [by intros s0 [= ->]|].
    split; [discriminate|]. split; [reflexivity|]. by rewrite E.
  - split; [apply lookup_insert_eq|]. split; [discriminate|].
    split; [reflexivity|].
    split; [intros other Hne; by apply lookup_insert_ne|].
    by rewrite lookup_insert_eq.
Qed.

Lemma post_chat_other now fresh sent e st other :
  other <> Api.request_session_id sent fresh ->
  fst (Api.post_chat now fresh sent e st) !! other = st !! other.
Proof.
  intros Hne. unfold Api.post_chat, Api.get_or_create_session.
  destruct (st !! _) as [s|]; destruct (Api.chat e _) as [s' r]; simpl;
    rewrite ?lookup_insert_ne by congruence; reflexivity.
Qed.

Lemma post_chat_stream_other now fresh sent e st other :
  other <> Api.request_session_id sent fresh ->
  fst (Api.post_chat_stream now fresh sent e st) !! other = st !! other.
Proof.
  intros Hne. unfold Api.post_chat_stream, Api.get_or_create_session.
  destruct (st !! _) as [s|]; destruct (Api.chat_stream e _) as [s' r]; simpl;
    rewrite ?lookup_insert_ne by congruence; reflexivity.
Qed.

Lemma submit_email_other check auth sid email st other :
  other <> sid ->
  fst (Api.submit_email check auth sid email st) !! other = st !! other.
Proof.
  intros Hne. unfold Api.submit_email.
  destruct (check email) as [normalised|]; [|reflexivity].
  destruct (negb _); [reflexivity|].
  destruct (st !! sid) as [s|]; [|reflexivity].
  destruct (Api.submit_session auth sid normalised s) as [s' r]. simpl.
  by rewrite lookup_insert_ne by congruence.
Qed.

Lemma skip_email_other sid st other :
  other <> sid ->
  fst (Api.skip_email sid st) !! other = st !! other.
Proof.
  intros Hne. unfold Api.skip_email.
  destruct (negb _); [reflexivity|].
  destruct (st !! sid) as [s|]; [|reflexivity].
  destruct (Api.skip_session s) as [s' r].
  destruct r as [c d|[|] m|]; simpl; try reflexivity.
  by rewrite lookup_insert_ne by congruence.
Qed.

(** X2.  Every endpoint works on the session of its own id only: whatever
    the request, the entry stored under any other id is the same before and
    after the two chat endpoints, the e-mail submission, the skip and the
    clearing of a session. *)
Theorem endpoints_leave_other_sessions
        now fresh sent e check auth email sid st other :
  other <> sid ->
  Api.request_session_id sent fresh = sid ->
  fst (Api.post_chat now fresh sent e st) !! other = st !! other
  /\ fst (Api.post_chat_stream now fresh sent e st) !! other = st !! other
  /\ fst (Api.submit_email check auth sid email st) !! other = st !! other
  /\ fst (Api.skip_email sid st) !! other = st !! other
  /\ fst (Api.clear_session sid st) !! other = st !! other.
Proof.
  intros Hne Hid.
  split; [apply post_chat_other; congruence|].
  split; [apply post_chat_stream_other; congruence|].
  split; [by apply submit_email_other|].
  split; [by apply skip_email_other|].
  rewrite clear_session_store. by apply lookup_delete_ne.
Qed.

Lemma endpoints_leave_other_sessions_witness :
  fst (Api.post_chat_stream "2025-01-02T00:00:00" "session_9"
         (Some "session_1") None two_sessions) !! "session_2"
  = Some Sample.authenticated
  /\ fst (Api.skip_email "session_1" two_sessions) !! "session_2"
     = Some Sample.authenticated.
Proof.
  destruct (endpoints_leave_other_sessions
              "2025-01-02T00:00:00" "session_9" (Some "session_1") None
              Sample.request_model None
              "a@b.com" "session_1" two_sessions "session_2")
    as (_ & Hs & _ & Hk & _); [discriminate | reflexivity |].
  rewrite Hs, Hk. split; reflexivity.
Defined.

(** X3.  For a session id that is empty or not stored, the skip is
    answered with the error 400 "Invalid session", and so is the e-mail
    submission of an address that the request model passes; an address that
    the request model refuses is answered with status 422 whatever the
    session id.  In each case the store is left as it was (no session is
    created). *)
Theorem unknown_session_rejected check auth sid raw st :
  sid = EmptyString \/ st !! sid = None ->
  Api.skip_email sid st = (st, Api.HttpError 400 "Invalid session")
  /\ (forall email, check raw = Some email ->
        Api.submit_email check auth sid raw st
        = (st, Api.HttpError 400 "Invalid session"))
  /\ (check raw = None ->
      Api.submit_email check auth sid raw st = (st, Api.Unprocessable)).
Proof.
  unfold Api.submit_email, Api.skip_email.
  intros Hsid. split; [|split].
  - destruct Hsid as [->|Hs]; [reflexivity|].
    destruct (negb (Text.nonempty sid)); [reflexivity|]. by rewrite Hs.
  - intros email ->. destruct Hsid as [->|Hs]; [reflexivity|].
    destruct (negb (Text.nonempty sid)); [reflexivity|]. by rewrite Hs.
  - by intros ->.
Qed.

Lemma unknown_session_rejected_witness :
  Api.skip_email "session_7" Sample.one_session
  = (Sample.one_session, Api.HttpError 400 "Invalid session")
  /\ Api.submit_email Sample.request_model None "session_7" "a@b.com"
       Sample.one_session
     = (Sample.one_session, Api.HttpError 400 "Invalid session")
  /\ Api.submit_email Sample.request_model None "session_7" "not-an-email"
       Sample.one_session
     = (Sample.one_session, Api.Unprocessable).
Proof.
  destruct (unknown_session_rejected Sample.request_model None "session_7"
              "a@b.com" Sample.one_session) as (Hk & Hs & _);
    [right; reflexivity|].
  destruct (unknown_session_rejected Sample.request_model None "session_7"
              "not-an-email" Sample.one_session) as (_ & _ & Hr);
    [right; reflexivity|].
  split; [exact Hk|]. split; [by apply (Hs "a@b.com") | by apply Hr].
Defined.



End StoreFacts.

Section GateFacts.

Import Api.
Implicit Types (s : session) (e : option string).

Local Arguments Nat.leb : simpl never.
Local Arguments Nat.ltb : simpl never.
Local Arguments Nat.eqb : simpl never.

(** X4.  A request that is blocked changes nothing: when the non-streaming
    endpoint answers [require_email], or the streaming endpoint sends its
    stop event, the session is exactly as before, the reported skip count is
    the session's, and the request was an anonymous one without e-mail at or
    past the free limit. *)
Theorem blocked_request_changes_nothing s e :
  (forall k, snd (chat e s) = RequireEmail k ->
     fst (chat e s) = s /\ k = skip_count s
     /\ email_provided s = false /\ Text.truthy e = false
     /\ FREE_QUERY_LIMIT <= query_count s)
  /\ (forall a k, snd (chat_stream e s) = Stop a k ->
        fst (chat_stream e s) = s /\ k = skip_count s
        /\ email_provided s = false /\ Text.truthy e = false
        /\ FREE_QUERY_LIMIT <= query_count s).
Proof.
  split.
  - intros k. unfold chat.
    destruct (email_provided s) eqn:He, (Text.truthy e) eqn:Ht,
             (Nat.leb_spec FREE_QUERY_LIMIT (query_count s)); simpl;
      rewrite ?He; simpl; rewrite ?He; simpl; intros Hr;
      try discriminate Hr.
    injection Hr as <-. repeat split. assumption.
  - intros a k. unfold chat_stream, stream_gate.
    destruct (email_provided s) eqn:He; [discriminate|].
    destruct (Nat.ltb_spec (query_count s) FREE_QUERY_LIMIT); [discriminate|].
    destruct (Text.truthy e) eqn:Ht; simpl.
    + destruct (query_count s =? FREE_QUERY_LIMIT); discriminate.
    + destruct (query_count s =? FREE_QUERY_LIMIT);
        [destruct (skip_count s =? 1); [discriminate|]|];
        intros Hr; injection Hr as <- <-; repeat split; assumption.
Qed.

(** X5.  The gate for an anonymous request without e-mail.  The streaming
    endpoint lets it through exactly when fewer than the free limit have
    been counted, or exactly the limit and the skip has been used; it
    offers the skip exactly at the limit with no skip used; otherwise it
    demands the e-mail.  The non-streaming endpoint answers exactly when
    fewer than the limit have been counted: it does not honour a skip. *)
Theorem anonymous_gate_table s e :
  email_provided s = false -> Text.truthy e = false ->
  (snd (stream_gate e s) = Allow
   <-> query_count s < FREE_QUERY_LIMIT
       \/ (query_count s = FREE_QUERY_LIMIT /\ skip_count s = 1))
  /\ (snd (stream_gate e s) = Stop true (skip_count s)
      <-> query_count s = FREE_QUERY_LIMIT /\ skip_count s = 0)
  /\ (snd (stream_gate e s) = Stop false (skip_count s)
      <-> FREE_QUERY_LIMIT < query_count s
          \/ (query_count s = FREE_QUERY_LIMIT /\ 2 <= skip_count s))
  /\ (snd (chat e s) = Answered <-> query_count s < FREE_QUERY_LIMIT).
Proof.
  intros He Ht. unfold stream_gate, chat. rewrite He, Ht. simpl.
  destruct (Nat.ltb_spec (query_count s) FREE_QUERY_LIMIT) as [Hlt|Hge],
           (Nat.eqb_spec (query_count s) FREE_QUERY_LIMIT) as [Heq|Hne],
           (Nat.eqb_spec (skip_count s) 1) as [H1|H1],
           (Nat.eqb_spec (skip_count s) 0) as [H0|H0],
           (Nat.leb_spec FREE_QUERY_LIMIT (query_count s)) as [Hle|Hgt];
    simpl; rewrite ?He; simpl;
    unfold FREE_QUERY_LIMIT in *;
    repeat split; intros; try discriminate; try lia; try reflexivity;
    try (left; lia); try (right; lia).
Qed.

Lemma anonymous_gate_table_witness :
  snd (stream_gate None blocked) = Stop false 1
  /\ snd (chat None (set_skip_count 1 Sample.at_limit)) <> Answered
  /\ snd (stream_gate None (set_skip_count 1 Sample.at_limit)) = Allow.
Proof.
  destruct (anonymous_gate_table blocked None eq_refl eq_refl)
    as (_ & _ & Hstop & _).
  destruct (anonymous_gate_table (set_skip_count 1 Sample.at_limit) None
              eq_refl eq_refl) as (Hallow & _ & _ & Hchat).
  split; [apply Hstop; left; vm_compute; lia|].
  split.
  - intros H. apply Hchat in H. vm_compute in H. lia.
  - apply Hallow. right. split; reflexivity.
Defined.

Lemma blocked_step sid r s :
  email_provided s = false -> FREE_QUERY_LIMIT < query_count s ->
  without_email r = true ->
  step sid r s = (s, false).
Proof.
  intros He Hq Hr. destruct r as [e|e| |auth e]; simpl in *;
    try discriminate Hr; try apply negb_true_iff in Hr.
  - unfold chat. rewrite He, Hr. simpl.
    destruct (Nat.leb_spec FREE_QUERY_LIMIT (query_count s)); [reflexivity|lia].
  - unfold chat_stream, stream_gate. rewrite He, Hr. simpl.
    destruct (Nat.ltb_spec (query_count s) FREE_QUERY_LIMIT); [lia|].
    destruct (Nat.eqb_spec (query_count s) FREE_QUERY_LIMIT); [lia|].
    reflexivity.
  - unfold skip_session.
    destruct (Nat.eqb_spec (query_count s) FREE_QUERY_LIMIT); [lia|].
    reflexivity.
Qed.

(** X6.  Past the free limit nothing moves without an e-mail: for an
    anonymous session whose [query_count] exceeds the limit, any sequence of
    chat requests, streaming requests and skips that carry no e-mail leaves
    the session exactly as it is, and none of the skips is accepted. *)
Theorem blocked_until_email sid rs s k :
  email_provided s = false ->
  FREE_QUERY_LIMIT < query_count s ->
  forallb without_email rs = true ->
  run sid rs s k = (s, k).
Proof.
  intros He Hq. induction rs as [|r rs IH]; simpl; [reflexivity|].
  intros Hrs. apply andb_true_iff in Hrs as [Hr Hrs].
  rewrite (blocked_step sid r s He Hq Hr). by apply IH.
Qed.

Lemma blocked_until_email_witness :
  run "session_1" [ReqStream None; ReqSkip; ReqChat (Some ""); ReqStream None]
      blocked 1
  = (blocked, 1).
Proof.
  apply blocked_until_email; [reflexivity | vm_compute; lia | reflexivity].
Defined.

(** X7.  The e-mail field of a chat request, for an anonymous session.  The
    streaming endpoint ignores it while fewer than the free limit have been
    counted: the query is counted and no address is recorded.  At or past
    the limit it records the address, resets the skip and still counts the
    query.  The non-streaming endpoint records the address at any count,
    unchecked, and does not count the query. *)
Theorem request_email_field s e :
  email_provided s = false -> Text.truthy e = true ->
  (query_count s < FREE_QUERY_LIMIT ->
   chat_stream e s = (set_query_count (query_count s + 1) s, Allow))
  /\ (FREE_QUERY_LIMIT <= query_count s ->
      chat_stream e s
      = (set_query_count (query_count s + 1)
           (set_skip_count 0 (set_email e s)), Allow))
  /\ chat e s = (set_email e s, Answered).
Proof.
  intros He Ht. unfold chat_stream, stream_gate, chat, generate.
  rewrite He, Ht. simpl.
  split; [|split].
  - intros Hlt. destruct (Nat.ltb_spec (query_count s) FREE_QUERY_LIMIT);
      [reflexivity | lia].
  - intros Hge. destruct (Nat.ltb_spec (query_count s) FREE_QUERY_LIMIT);
      [lia|].
    destruct (query_count s =? FREE_QUERY_LIMIT); reflexivity.
  - reflexivity.
Qed.

Lemma request_email_field_witness :
  email_provided (fst (chat_stream (Some "not-an-email")
                         (new_session "2025-01-01T00:00:00"))) = false
  /\ email_provided (fst (chat (Some "not-an-email") blocked)) = true
  /\ query_count (fst (chat (Some "not-an-email") blocked)) = 3.
Proof.
  destruct (request_email_field (new_session "2025-01-01T00:00:00")
              (Some "not-an-email") eq_refl eq_refl) as (Hlow & _ & _).
  destruct (request_email_field blocked (Some "not-an-email")
              eq_refl eq_refl) as (_ & _ & Hchat).
  rewrite Hlow by (vm_compute; lia). rewrite Hchat.
  repeat split.
Defined.

Lemma step_api_consistent sid r s :
  api_consistent s -> api_consistent (fst (step sid r s)).
Proof.
  intros [Hiff Hk]. unfold api_consistent.
  assert (Hsome : forall x : string, Some x <> None) by discriminate.
  destruct r as [e|e| |auth e];
    [destruct e as [x|] | destruct e as [x|] | | destruct auth as [am|]];
    simpl;
    unfold chat, chat_stream, stream_gate, generate, skip_session,
      submit_session, Auth.save_email_only;
    split_ifs; bool_to_prop; simpl in *;
    (split; [try exact Hiff; intuition congruence | lia]).
Qed.

(** X9.  In every session the API can reach from a new one, an address is
    recorded exactly when [email_provided] is set, and [skip_count] is 0 or
    1. *)
Theorem api_sessions_consistent now sid rs :
  api_consistent (fst (run sid rs (new_session now) 0)).
Proof.
  assert (H : forall s k, api_consistent s ->
                          api_consistent (fst (run sid rs s k))).
  { induction rs as [|r rs IH]; intros s k Hs; simpl; [exact Hs|].
    pose proof (step_api_consistent sid r s Hs) as Hs'.
    destruct (step sid r s) as [s' a]. by apply IH. }
  apply H. split; [|simpl; lia]. simpl. split; [discriminate | congruence].
Qed.

End GateFacts.

(* ===================================================================== *)
(** * Further properties: the session logic of UI.py *)
(* ===================================================================== *)

Section UiFacts.

Import Ui.
Implicit Types (s : session) (auth : option Auth.manager).

Local Arguments Nat.leb : simpl never.
Local Arguments Nat.eqb : simpl never.

Ltac ui_split :=
  unfold chat_handler, handle_email_submission, handle_skip_email,
    process_normal_message, submit_email, ensure_session_id;
  repeat match goal with
    | |- context [match ?o with Some _ => _ | None => _ end] => destruct o eqn:?
    | |- context [if ?b then _ else _] => destruct b eqn:?
    end;
  bool_to_prop; unfold FREE_QUERY_LIMIT in *; simpl in *.

Lemma chat_handler_ui_consistent auth fresh m s :
  ui_consistent s -> ui_consistent (fst (chat_handler auth fresh m s)).
Proof.
  unfold ui_consistent. intros (Hiff & Hk & Hp).
  ui_split;
    (split; [intuition congruence | split; [lia|]]);
    intros Ht;
    repeat match goal with
      | E : pending_message s = _ |- _ => rewrite E in Ht
      end;
    simpl in Ht; try discriminate Ht;
    try (destruct (Hp Ht) as [He Hq]);
    split; try congruence; try lia.
Qed.

(** X10.  In every state the chat UI can reach from its initial session, an
    address is recorded exactly when [email_provided] is set, [skip_count]
    is 0 or 1, and a question is pending only while no e-mail has been given
    and more than the free limit of questions have been counted. *)
Theorem ui_sessions_consistent auth fresh ms :
  ui_consistent (fst (run auth fresh ms current_session 0)).
Proof.
  assert (H : forall s k, ui_consistent s ->
                          ui_consistent (fst (run auth fresh ms s k))).
  { induction ms as [|m ms IH]; intros s k Hs; simpl; [exact Hs|].
    pose proof (chat_handler_ui_consistent auth fresh m s Hs) as Hs'.
    destruct (chat_handler auth fresh m s) as [s' a]. by apply IH. }
  apply H. unfold ui_consistent. simpl.
  split; [split; [discriminate | congruence] | split; [lia | discriminate]].
Qed.

Lemma chat_handler_skip auth fresh s :
  chat_handler auth fresh "SKIP_EMAIL" s = handle_skip_email s.
Proof. reflexivity. Qed.

Lemma chat_handler_skip_account auth fresh m s k :
  ui_skip_account s k ->
  let '(s', a) := chat_handler auth fresh m s in
  ui_skip_account s' (if skip_accepted m a then S k else k).
Proof.
  unfold ui_skip_account, skip_accepted. intros (Hk & Hs & Hp).
  destruct (String.eqb m "SKIP_EMAIL") eqn:Hm.
  - apply String.eqb_eq in Hm. subst m. rewrite chat_handler_skip.
    unfold handle_skip_email.
    destruct (pending_message s) as [p|] eqn:Ep; simpl;
      [|rewrite Ep; intuition (first [reflexivity | congruence | lia])].
    destruct (Text.nonempty p) eqn:Np; simpl;
      [|rewrite Ep; simpl; rewrite Np; intuition (first [reflexivity | congruence | lia])].
    destruct (Nat.eqb_spec (skip_count s) 0) as [H0|H0]; simpl;
      [|rewrite Ep; simpl; rewrite Np; simpl in Hp; rewrite Np in Hp;
        intuition (first [reflexivity | congruence | lia])].
    destruct (email_provided s) eqn:He.
    + specialize (Hp eq_refl). simpl in Hp. congruence.
    + specialize (Hs eq_refl). split; [lia|]. split; [lia | discriminate].
  - unfold chat_handler. rewrite Hm.
    destruct (negb (Text.nonempty m) || negb (Text.nonempty (Text.strip m)));
      [simpl; intuition (first [reflexivity | congruence | lia])|].
    destruct (Text.startswith "EMAIL_SUBMIT:" m).
    + unfold handle_email_submission, submit_email, ensure_session_id.
      split_ifs; simpl;
        repeat match goal with
          | |- context [match ?o with Some _ => _ | None => _ end] =>
              destruct o eqn:?
          | |- context [if ?b then _ else _] => destruct b eqn:?
          end; simpl; try intuition (first [reflexivity | congruence | lia]);
        (split; [lia | split; [discriminate | reflexivity]]).
    + unfold process_normal_message, ensure_session_id.
      split_ifs; simpl in *; try intuition (first [reflexivity | congruence | lia]);
        (split; [lia | split; [intuition (first [reflexivity | congruence | lia]) | congruence]]).
Qed.

(** X11.  In a conversation of the chat UI at most one skip is ever
    accepted, whatever is typed and whether or not an e-mail is given in
    between: a second question past the free limit is answered only after
    the e-mail. *)
Theorem ui_at_most_one_skip auth fresh ms :
  snd (run auth fresh ms current_session 0) <= 1.
Proof.
  assert (H : forall s k, ui_skip_account s k ->
                          ui_skip_account (fst (run auth fresh ms s k))
                                          (snd (run auth fresh ms s k))).
  { induction ms as [|m ms IH]; intros s k Hs; simpl; [exact Hs|].
    pose proof (chat_handler_skip_account auth fresh m s k Hs) as Hs'.
    destruct (chat_handler auth fresh m s) as [s' a]. by apply IH. }
  apply (H current_session 0).
  unfold ui_skip_account. simpl. split; [lia | split; [reflexivity | discriminate]].
Qed.

(** X12.  An e-mail submission in the chat UI succeeds exactly when a
    manager is present, its database call goes through and the address left
    after removing the command prefix and stripping is valid.  On success
    the address is recorded as typed, the skip is reset, and the pending
    question, if any, is run as a pending one.  Otherwise an error is shown
    and the session keeps its counters, its e-mail fields and its pending
    question. *)
Theorem ui_email_submission auth fresh message s :
  let email := Text.strip (Text.replace "EMAIL_SUBMIT:" "" message) in
  let ok := match auth with
            | Some am => Auth.validate_email email && Auth.db_ok am
            | None => false
            end in
  let s' := fst (handle_email_submission auth fresh message s) in
  let a := snd (handle_email_submission auth fresh message s) in
  (ok = true ->
   s' = set_skip_count 0
          (set_email_provided true
             (set_pending_message None
                (set_user_email (Some email)
                   (set_email_provided true (ensure_session_id fresh s)))))
   /\ a = match pending_message s with
          | Some p => if Text.nonempty p then RunQuery p true else Unchanged
          | None => Unchanged
          end)
  /\ (ok = false ->
      (exists status, a = EmailError status) /\ ui_same_quota s s').
Proof.
  intros email ok s' a. subst ok s' a.
  unfold handle_email_submission, submit_email, Auth.save_email_only.
  fold email.
  assert (Hne : Auth.validate_email email = true ->
                negb (Text.nonempty email)
                || negb (Text.nonempty (Text.strip email)) = false).
  { intros Hv. unfold email at 2. rewrite strip_involutive. fold email.
    destruct email; [discriminate Hv | reflexivity]. }
  assert (Hpend : forall x, pending_message (ensure_session_id fresh x)
                            = pending_message x).
  { intros x. unfold ensure_session_id. by destruct (Text.truthy _). }
  destruct auth as [am|]; simpl.
  - destruct (Auth.validate_email email) eqn:Hv; simpl.
    + rewrite (Hne eq_refl). destruct (Auth.db_ok am); simpl.
      * split; [intros _ | discriminate].
        rewrite Hpend. destruct (pending_message s) as [p|]; [|done].
        by destruct (Text.nonempty p).
      * split; [discriminate | intros _].
        split; [eauto|]. unfold ui_same_quota, ensure_session_id.
        by destruct (Text.truthy _).
    + split; [discriminate | intros _].
      destruct (negb (Text.nonempty email)
                || negb (Text.nonempty (Text.strip email))); simpl;
        (split; [eauto|]); unfold ui_same_quota, ensure_session_id;
        try by destruct (Text.truthy _).
      done.
  - split; [discriminate | intros _]. split; [eauto | done].
Qed.

Lemma process_normal_message_blocked fresh m s :
  email_provided s = false -> FREE_QUERY_LIMIT <= query_count s ->
  process_normal_message fresh m s
  = (set_pending_message (Some m)
       (set_query_count (query_count s + 1) (ensure_session_id fresh s)),
     EmailCard m).
Proof.
  intros He Hq. unfold process_normal_message, ensure_session_id.
  destruct (Text.truthy (session_id s)); simpl; rewrite He;
    (destruct (Nat.leb_spec (query_count s + 1) FREE_QUERY_LIMIT);
     [lia | reflexivity]).
Qed.

Lemma chat_handler_plain auth fresh m s :
  plain_message m = true ->
  chat_handler auth fresh m s = process_normal_message fresh m s.
Proof.
  unfold plain_message, chat_handler. intros H.
  apply andb_true_iff in H as [H H4]. apply andb_true_iff in H as [H H3].
  apply andb_true_iff in H as [H1 H2].
  rewrite H1, H2. simpl.
  apply negb_true_iff in H3, H4. by rewrite H3, H4.
Qed.

Lemma handle_skip_email_pending s p :
  pending_message s = Some p -> Text.nonempty p = true -> skip_count s = 0 ->
  handle_skip_email s
  = (set_pending_message None (set_skip_count 1 s), RunQuery p true).
Proof.
  intros Ep Np Hk. unfold handle_skip_email. by rewrite Ep, Np, Hk.
Qed.

Lemma ensure_session_id_quota fresh s :
  ui_same_quota s (ensure_session_id fresh s).
Proof.
  unfold ui_same_quota, ensure_session_id. by destruct (Text.truthy _).
Qed.

(** X13.  Only the last blocked question is kept.  When an anonymous user
    at or past the free limit, with the skip unused, types two ordinary
    messages and then skips, both messages are counted and shown the e-mail
    card, the skip runs the second message, and the first is never run. *)
Theorem ui_pending_is_last_blocked auth fresh m1 m2 s :
  email_provided s = false -> FREE_QUERY_LIMIT <= query_count s ->
  skip_count s = 0 ->
  plain_message m1 = true -> plain_message m2 = true ->
  let '(s1, a1) := chat_handler auth fresh m1 s in
  let '(s2, a2) := chat_handler auth fresh m2 s1 in
  let '(s3, a3) := chat_handler auth fresh "SKIP_EMAIL" s2 in
  a1 = EmailCard m1 /\ a2 = EmailCard m2 /\ a3 = RunQuery m2 true
  /\ query_count s3 = query_count s + 2
  /\ pending_message s3 = None /\ skip_count s3 = 1.
Proof.
  intros He Hq Hk H1 H2.
  destruct (ensure_session_id_quota fresh s) as (Eq & Ee & _ & Ek & _).
  rewrite (chat_handler_plain auth fresh m1 s H1).
  rewrite (process_normal_message_blocked fresh m1 s He Hq).
  set (s1 := set_pending_message (Some m1) _).
  destruct (ensure_session_id_quota fresh s1) as (Eq1 & Ee1 & _ & Ek1 & _).
  rewrite (chat_handler_plain auth fresh m2 s1 H2).
  rewrite process_normal_message_blocked;
    [| subst s1; simpl; congruence | subst s1; simpl; lia].
  assert (Hn2 : Text.nonempty m2 = true).
  { unfold plain_message in H2. by destruct (Text.nonempty m2). }
  rewrite chat_handler_skip.
  rewrite (handle_skip_email_pending _ m2);
    [| reflexivity | exact Hn2 | simpl; subst s1; simpl in *; congruence].
  simpl. subst s1. simpl in *.
  repeat split; lia.
Qed.

Lemma ui_pending_is_last_blocked_witness :
  let s := set_query_count 2 current_session in
  let '(s1, a1) := chat_handler None "session_0" "Admission dates?" s in
  let '(s2, a2) := chat_handler None "session_0" "Hostel fees?" s1 in
  let '(s3, a3) := chat_handler None "session_0" "SKIP_EMAIL" s2 in
  a1 = EmailCard "Admission dates?" /\ a2 = EmailCard "Hostel fees?"
  /\ a3 = RunQuery "Hostel fees?" true
  /\ query_count s3 = query_count s + 2
  /\ pending_message s3 = None /\ skip_count s3 = 1.
Proof.
  exact (ui_pending_is_last_blocked None "session_0" "Admission dates?"
           "Hostel fees?" (set_query_count 2 current_session)
           eq_refl (le_n 2) eq_refl eq_refl eq_refl).
Defined.

End UiFacts.

(* ===================================================================== *)
(** * Further properties: [run_query] of UI.py *)
(* ===================================================================== *)

Section UiQueryFacts.

Import UiQuery.

(** X14.  The chat UI never shows the chatbot's streamed answer.  The
    streaming query yields dictionaries with three keys, which [run_query]
    unpacks into two names; so for every question the first event raises,
    and the call appends the error reply to the history, yields that
    history once and logs nothing. *)
Theorem run_query_on_stream_shows_error rt auth message h as_pending :
  let h' := h ++ [(user_text message as_pending, ERROR_REPLY)] in
  run_query (Some (Chatbot.query_streaming rt message)) auth message h
            as_pending
  = {| yielded := [h']; final := h'; logged := None |}.
Proof.
  destruct (query_streaming_ends rt message) as (init & final & E & _ & _).
  unfold run_query. rewrite E.
  destruct init as [|ev init]; reflexivity.
Qed.

End UiQueryFacts.

(* ===================================================================== *)
(** * Further properties: [validate_email] of main.py *)
(* ===================================================================== *)

Section RegexFacts.

Import Regex RegexSem.

Lemma append_nil_inv (s t : string) :
  s +:+ t = EmptyString -> s = EmptyString /\ t = EmptyString.
Proof. destruct s; [simpl; auto | discriminate]. Qed.

Lemma append_cons_inv (s t : string) c w :
  s +:+ t = String c w ->
  (s = EmptyString /\ t = String c w)
  \/ exists s', s = String c s' /\ w = s' +:+ t.
Proof.
  destruct s as [|x s]; [left; auto|].
  rewrite append_cons. intros [= -> <-]. right. eauto.
Qed.

Lemma nullable_matches r : nullable r = true <-> matches r EmptyString.
Proof.
  split.
  - induction r; simpl; intros H; try discriminate H.
    + constructor.
    + apply andb_true_iff in H as [Ha Hb].
      apply (MCat _ _ EmptyString EmptyString); auto.
    + apply orb_true_iff in H as [Ha|Hb];
        [apply MAltL | apply MAltR]; auto.
    + constructor.
  - remember EmptyString as w eqn:Ew. intros H.
    induction H; simpl; try reflexivity; try discriminate Ew.
    + apply append_nil_inv in Ew as [-> ->].
      rewrite IHmatches1, IHmatches2; reflexivity.
    + rewrite IHmatches; [reflexivity | assumption].
    + rewrite IHmatches; [apply orb_true_r | assumption].
Qed.

Lemma deriv_sound c r : forall s,
  matches (deriv c r) s -> matches r (String c s).
Proof.
  induction r; simpl; intros s H.
  - inversion H.
  - inversion H.
  - destruct (p c) eqn:Hp; inversion H; subst. by constructor.
  - destruct (nullable r1) eqn:Hn.
    + inversion H as [| | | ? ? ? H1 | ? ? ? H1 | |]; subst.
      * inversion H1 as [| | ? ? u v Hu Hv | | | |]; subst.
        apply (MCat r1 r2 (String c u) v); auto.
      * apply (MCat r1 r2 EmptyString (String c s)); auto.
        by apply nullable_matches.
    + inversion H as [| | ? ? u v Hu Hv | | | |]; subst.
      apply (MCat r1 r2 (String c u) v); auto.
  - inversion H; subst; [apply MAltL | apply MAltR]; auto.
  - inversion H as [| | ? ? u v Hu Hv | | | |]; subst.
    apply (MStarApp r (String c u) v); auto.
Qed.

Lemma deriv_complete c r w :
  matches r w -> forall s, w = String c s -> matches (deriv c r) s.
Proof.
  induction 1 as [|p x Hp|a b u v Hu IHu Hv IHv|a b u Hu IHu|a b u Hu IHu
                  |a|a u v Hu IHu Hv IHv]; intros s E; simpl.
  - discriminate E.
  - injection E as -> <-. rewrite Hp. constructor.
  - apply append_cons_inv in E as [[-> ->]|(u' & -> & ->)].
    + apply nullable_matches in Hu. rewrite Hu. apply MAltR. by apply IHv.
    + destruct (nullable a); [apply MAltL|]; constructor; auto.
  - apply MAltL. auto.
  - apply MAltR. auto.
  - discriminate E.
  - apply append_cons_inv in E as [[-> ->]|(u' & -> & ->)].
    + by apply IHv.
    + constructor; auto.
Qed.

Lemma fullmatch_matches s : forall r, fullmatch r s = true <-> matches r s.
Proof.
  induction s as [|c s IH]; intros r; simpl.
  - apply nullable_matches.
  - rewrite IH. split; [apply deriv_sound|].
    intros H. by apply (deriv_complete c r (String c s)).
Qed.

Lemma matches_cat a b w :
  matches (Cat a b) w
  <-> exists u v, w = u +:+ v /\ matches a u /\ matches b v.
Proof.
  split.
  - inversion 1; subst. eauto.
  - intros (u & v & -> & Hu & Hv). by constructor.
Qed.

Lemma matches_class p w :
  matches (Class p) w <-> exists c, w = String c EmptyString /\ p c = true.
Proof.
  split.
  - inversion 1; subst. eauto.
  - intros (c & -> & Hc). by constructor.
Qed.

Lemma matches_star_class p w :
  matches (Star (Class p)) w <-> all p w = true.
Proof.
  split.
  - remember (Star (Class p)) as r eqn:Er. intros H.
    induction H; try discriminate Er; [reflexivity|].
    injection Er as ->. inversion H; subst. simpl.
    change (EmptyString +:+ t) with t.
    rewrite IHmatches2 by reflexivity.
    by match goal with E : p _ = true |- _ => rewrite E end.
  - induction w as [|c w IH]; simpl; intros H; [constructor|].
    apply andb_true_iff in H as [Hc Hw].
    apply (MStarApp (Class p) (String c EmptyString) w); auto.
    by constructor.
Qed.

Lemma matches_plus_class p w :
  matches (plus (Class p)) w <-> w <> EmptyString /\ all p w = true.
Proof.
  unfold plus. rewrite matches_cat. split.
  - intros (u & v & -> & Hu & Hv).
    apply matches_class in Hu as (c & -> & Hc).
    apply matches_star_class in Hv. simpl.
    change (EmptyString +:+ v) with v. rewrite Hc, Hv.
    split; [discriminate | reflexivity].
  - intros [Hne Hall]. destruct w as [|c w]; [contradiction|].
    simpl in Hall. apply andb_true_iff in Hall as [Hc Hw].
    exists (String c EmptyString), w. split; [reflexivity|].
    split; [by constructor | by apply matches_star_class].
Qed.

Lemma matches_chr n w :
  n < 256 ->
  matches (chr n) w <-> w = String (ascii_of_nat n) EmptyString.
Proof.
  intros Hn. unfold chr. rewrite matches_class. split.
  - intros (c & -> & Hc). apply Nat.eqb_eq in Hc. unfold Text.code in Hc.
    by rewrite <- Hc, ascii_nat_embedding.
  - intros ->. eexists. split; [reflexivity|].
    apply Nat.eqb_eq. unfold Text.code. by apply nat_ascii_embedding.
Qed.

Lemma matches_opt_newline w :
  matches (opt (chr 10)) w <-> w = EmptyString \/ w = Text.newline.
Proof.
  unfold opt. split.
  - inversion 1 as [| | | ? ? ? H1 | ? ? ? H1 | |]; subst.
    + apply matches_chr in H1; [by right | lia].
    + inversion H1. by left.
  - intros [->| ->]; [apply MAltR; constructor|].
    apply MAltL. apply matches_chr; [lia | reflexivity].
Qed.

(** X15.  The addresses that [validate_email] accepts.  After lowering,
    the address has to read local@domain.tld, possibly followed by one
    final newline: a non-empty local part of letters, digits and the signs
    . _ % + -, a non-empty domain of letters, digits, dots and hyphens, and
    a last label of at least two letters. *)
Theorem validate_email_shape (email : string) :
  Auth.validate_email email = true
  <-> exists local domain tld nl,
        Text.lower email
        = local +:+ "@" +:+ domain +:+ "." +:+ tld +:+ nl
        /\ local <> EmptyString /\ all Auth.local_char local = true
        /\ domain <> EmptyString /\ all Auth.domain_char domain = true
        /\ 2 <= String.length tld /\ all is_letter tld = true
        /\ (nl = EmptyString \/ nl = Text.newline).
Proof.
  unfold Auth.validate_email, match_to_end, Auth.email_pattern.
  rewrite fullmatch_matches.
  rewrite matches_cat.
  split.
  - intros (u & nl & E & Hu & Hnl).
    apply matches_opt_newline in Hnl.
    apply matches_cat in Hu as (local & u1 & -> & Hl & Hu).
    apply matches_plus_class in Hl as [Hl1 Hl2].
    apply matches_cat in Hu as (at_ & u2 & -> & Ha & Hu).
    apply matches_chr in Ha; [subst at_ | lia].
    apply matches_cat in Hu as (domain & u3 & -> & Hd & Hu).
    apply matches_plus_class in Hd as [Hd1 Hd2].
    apply matches_cat in Hu as (dot & u4 & -> & Hdot & Hu).
    apply matches_chr in Hdot; [subst dot | lia].
    apply matches_cat in Hu as (t1 & t2 & -> & Ht1 & Ht2).
    apply matches_class in Ht1 as (c & -> & Hc).
    apply matches_plus_class in Ht2 as [Ht2 Ht3].
    exists local, domain, (String c t2), nl.
    rewrite E, !append_assoc. simpl.
    repeat split; try assumption.
    + destruct t2; [contradiction | simpl; lia].
    + by rewrite Hc, Ht3.
  - intros (local & domain & tld & nl & E & Hl1 & Hl2 & Hd1 & Hd2 & Ht1 & Ht2
            & Hnl).
    destruct tld as [|c t2]; [simpl in Ht1; lia|].
    simpl in Ht2. apply andb_true_iff in Ht2 as [Hc Ht2].
    exists (local +:+ "@" +:+ domain +:+ "." +:+ String c t2), nl.
    split; [by rewrite E, !append_assoc|].
    split; [|by apply matches_opt_newline].
    apply matches_cat. exists local, ("@" +:+ domain +:+ "." +:+ String c t2).
    split; [reflexivity|]. split; [by apply matches_plus_class|].
    apply matches_cat. exists "@", (domain +:+ "." +:+ String c t2).
    split; [reflexivity|].
    split; [apply matches_chr; [lia | reflexivity]|].
    apply matches_cat. exists domain, ("." +:+ String c t2).
    split; [reflexivity|]. split; [by apply matches_plus_class|].
    apply matches_cat. exists ".", (String c t2).
    split; [reflexivity|].
    split; [apply matches_chr; [lia | reflexivity]|].
    apply matches_cat. exists (String c EmptyString), t2.
    split; [reflexivity|]. split; [by constructor|].
    apply matches_plus_class. split; [|assumption].
    destruct t2; [simpl in Ht1; lia | discriminate].
Qed.

End RegexFacts.

(* ===================================================================== *)
(** * Further properties: [save_email_only] of main.py *)
(* ===================================================================== *)

Section AuthDbFacts.

Import AuthDb.

Lemma find_one_update_same e now sid coll u :
  find_one e coll = Some u ->
  find_one e (update_one e now sid coll)
  = Some {| email := email u; created_at := created_at u; last_used := now;
            total_queries := total_queries u + 1; session_id := sid |}.
Proof.
  unfold find_one. induction coll as [|x coll IH]; simpl; [discriminate|].
  destruct (String.eqb (email x) e) eqn:Ex; simpl.
  - intros [= ->]. by rewrite Ex.
  - rewrite Ex. exact IH.
Qed.

Lemma find_one_update_other e e' now sid coll :
  e' <> e ->
  find_one e' (update_one e now sid coll) = find_one e' coll.
Proof.
  intros Hne. unfold find_one.
  induction coll as [|x coll IH]; simpl; [reflexivity|].
  destruct (String.eqb (email x) e) eqn:Ex; simpl.
  - apply String.eqb_eq in Ex.
    destruct (String.eqb_spec (email x) e'); [congruence | reflexivity].
  - by rewrite IH.
Qed.

Lemma find_one_insert e u coll :
  find_one e (insert_one u coll)
  = match find_one e coll with
    | Some x => Some x
    | None => if String.eqb (email u) e then Some u else None
    end.
Proof.
  unfold find_one, insert_one.
  induction coll as [|x coll IH]; simpl; [reflexivity|].
  by destruct (String.eqb (email x) e).
Qed.

Lemma emails_update_one e now sid coll :
  map email (update_one e now sid coll) = map email coll.
Proof.
  induction coll as [|x coll IH]; simpl; [reflexivity|].
  destruct (String.eqb (email x) e); simpl; [reflexivity | by rewrite IH].
Qed.

Lemma find_one_none e coll :
  find_one e coll = None -> ~ In e (map email coll).
Proof.
  unfold find_one. induction coll as [|x coll IH]; simpl; [tauto|].
  destruct (String.eqb_spec (email x) e); [discriminate|].
  intros H [Hx|Hin]; [contradiction | by apply IH].
Qed.

(** X16.  What [save_email_only] does to the collection of users.  Its
    answer is the one of the validity and database checks alone.  A refused
    address leaves the collection as it is.  An accepted one is filed under
    its lowered form: afterwards that record carries the session id of the
    call and one more query than the address had before (1 for a new
    address), every other address has the record it had, and a collection
    without two records for one address stays so. *)
Theorem save_email_only_record am now1 now2 addr sid coll :
  let coll' := fst (save_email_only am now1 now2 addr sid coll) in
  let r := snd (save_email_only am now1 now2 addr sid coll) in
  let before := match find_one (Text.lower addr) coll with
                | Some u => total_queries u
                | None => 0
                end in
  r = Auth.save_email_only am addr sid
  /\ (Auth.success r = false -> coll' = coll)
  /\ (Auth.success r = true ->
      (exists u, find_one (Text.lower addr) coll' = Some u
                 /\ session_id u = sid
                 /\ total_queries u = before + 1)
      /\ (forall e, e <> Text.lower addr ->
                    find_one e coll' = find_one e coll)
      /\ (NoDup (map email coll) -> NoDup (map email coll'))).
Proof.
  unfold save_email_only, Auth.save_email_only.
  destruct (Auth.validate_email addr); simpl;
    [|split; [reflexivity | split; [reflexivity | discriminate]]].
  destruct (Auth.db_ok am); simpl;
    [|split; [reflexivity | split; [reflexivity | discriminate]]].
  split; [reflexivity|]. split; [discriminate | intros _].
  destruct (find_one (Text.lower addr) coll) as [u|] eqn:Ef.
  - split; [|split].
    + eexists. split; [by apply find_one_update_same|]. by simpl.
    + intros e He. by apply find_one_update_other.
    + by rewrite emails_update_one.
  - split; [|split].
    + rewrite find_one_insert, Ef. simpl.
      destruct (String.eqb_spec (Text.lower addr) (Text.lower addr));
        [|contradiction].
      eexists. split; [reflexivity|]. split; reflexivity.
    + intros e He. rewrite find_one_insert. simpl.
      destruct (find_one e coll); [reflexivity|].
      destruct (String.eqb_spec (Text.lower addr) e); [congruence | reflexivity].
    + intros Hnd. unfold insert_one. rewrite map_app. simpl.
      apply NoDup_app. split; [exact Hnd|]. split.
      * intros x Hx Hk. apply list_elem_of_singleton in Hk. subst x.
        apply list_elem_of_In in Hx. by apply (find_one_none _ _ Ef).
      * apply NoDup_singleton.
Qed.

End AuthDbFacts.

(* ===================================================================== *)
(** * Further properties: the model wrapper of llm_config.py *)
(* ===================================================================== *)

Section LlmCallFacts.

Import Text.

Local Arguments Nat.pow : simpl never.
Local Arguments Nat.eqb : simpl never.
Local Arguments Nat.ltb : simpl never.

Lemma take_take_append n : forall s t,
  n <= String.length s ->
  take n (take n s +:+ t) = take n s.
Proof.
  induction n as [|n IH]; intros [|c s] t H; simpl in *; try reflexivity;
    [lia|].
  rewrite ?append_cons; simpl. rewrite IH; [reflexivity | lia].
Qed.

(** X17.  The prompt that reaches the model.  It is never longer than the
    budget of 30000 characters plus the 14 of the truncation mark, it
    agrees with the prompt given on the first 30000 characters, a prompt
    within the budget is passed as it is, and truncating twice is
    truncating once. *)
Theorem truncate_bounds (prompt : string) :
  String.length (Llm.truncate prompt) <= Llm.PROMPT_BUDGET + 14
  /\ take Llm.PROMPT_BUDGET (Llm.truncate prompt)
     = take Llm.PROMPT_BUDGET prompt
  /\ (String.length prompt <= Llm.PROMPT_BUDGET ->
      Llm.truncate prompt = prompt)
  /\ Llm.truncate (Llm.truncate prompt) = Llm.truncate prompt.
Proof.
  unfold Llm.truncate. generalize Llm.PROMPT_BUDGET. intros n.
  destruct (Nat.ltb_spec n (String.length prompt)) as [Hlt|Hge].
  - split; [|split; [|split]].
    + rewrite length_append, length_take. simpl. lia.
    + apply take_take_append. lia.
    + lia.
    + assert (Hlen : n < String.length (take n prompt +:+ "...[truncated]")).
      { rewrite length_append, length_take. simpl. lia. }
      destruct (Nat.ltb_spec n
                  (String.length (take n prompt +:+ "...[truncated]")));
        [|lia].
      rewrite take_take_append by lia. reflexivity.
  - split; [lia|]. split; [reflexivity|]. split; [reflexivity|].
    destruct (Nat.ltb_spec n (String.length prompt)); [lia | reflexivity].
Qed.

Lemma stream_retry_nonempty model prompt max_retries :
  forall remaining attempt,
    Forall (fun c => nonempty c = true)
           (Llm.retry_loop model prompt max_retries attempt remaining).
Proof.
  induction remaining as [|remaining IH]; intros attempt; simpl;
    [constructor|].
  apply Forall_app. split.
  - apply List.Forall_forall. intros c Hc.
    by apply List.filter_In in Hc as [_ Hc].
  - destruct (Llm.completes (model prompt attempt)); [constructor|].
    destruct (attempt =? max_retries - 1); [|apply IH].
    by repeat constructor.
Qed.

(** X18.  [GeminiLLM.stream] never yields an empty text, whatever the
    model sends and however the attempts end. *)
Theorem stream_chunks_nonempty max_retries model prompt :
  Forall (fun c => nonempty c = true) (Llm.stream max_retries model prompt).
Proof.
  unfold Llm.stream.
  destruct (negb (nonempty prompt) || negb (nonempty (strip prompt)));
    [by repeat constructor | apply stream_retry_nonempty].
Qed.

Import LlmCall.

Lemma usable_nonblank r a :
  usable r = Some a -> nonempty (strip a) = true /\ strip a = a.
Proof.
  unfold usable. destruct r as [text|]; [|discriminate].
  destruct (nonempty (strip text)) eqn:Hn; [|discriminate].
  intros [= <-]. by rewrite strip_involutive.
Qed.

Lemma retry_loop_nonblank model prompt max_retries :
  forall remaining attempt,
    nonempty (strip (fst (retry_loop model prompt max_retries attempt
                            remaining))) = true.
Proof.
  induction remaining as [|remaining IH]; intros attempt; simpl;
    [reflexivity|].
  destruct (usable (model prompt attempt)) as [a|] eqn:Hu; simpl.
  - by apply usable_nonblank in Hu as [Hu _].
  - destruct (attempt =? max_retries - 1); [reflexivity|].
    specialize (IH (S attempt)).
    by destruct (retry_loop model prompt max_retries (S attempt) remaining).
Qed.

(** X19.  The blocking call never hands back a blank answer: whatever the
    model does, the text returned by [__call__] (and so by [invoke]) has a
    character that is not white space. *)
Theorem call_never_blank max_retries model prompt :
  nonempty (strip (fst (invoke max_retries model prompt))) = true.
Proof.
  unfold invoke, call.
  destruct (negb (nonempty prompt) || negb (nonempty (strip prompt)));
    [reflexivity | apply retry_loop_nonblank].
Qed.

Lemma pow2_pos n : 0 < 2 ^ n.
Proof. apply Nat.neq_0_lt_0, Nat.pow_nonzero. discriminate. Qed.

Lemma retry_loop_first_usable model prompt max_retries :
  forall j attempt remaining a,
    attempt + remaining = max_retries ->
    j < remaining ->
    (forall i, attempt <= i < attempt + j ->
               usable (model prompt i) = None) ->
    usable (model prompt (attempt + j)) = Some a ->
    retry_loop model prompt max_retries attempt remaining
    = (a, 2 ^ (attempt + j) - 2 ^ attempt).
Proof.
  induction j as [|j IH]; intros attempt remaining a Hn Hj Hnone Hsome;
    (destruct remaining as [|remaining]; [lia|]); simpl.
  - rewrite Nat.add_0_r in *. rewrite Hsome. f_equal. lia.
  - rewrite (Hnone attempt) by lia.
    destruct (Nat.eqb_spec attempt (max_retries - 1)); [lia|].
    rewrite (IH (S attempt) remaining a); try lia.
    + f_equal. replace (S attempt + j) with (attempt + S j) by lia.
      assert (2 ^ S attempt <= 2 ^ (attempt + S j))
        by (apply Nat.pow_le_mono_r; lia).
      rewrite Nat.pow_succ_r' in *. lia.
    + intros i Hi. apply Hnone. lia.
    + by replace (S attempt + j) with (attempt + S j) by lia.
Qed.

Lemma retry_loop_none_usable model prompt max_retries :
  forall remaining attempt,
    attempt + remaining = max_retries ->
    0 < remaining ->
    (forall i, attempt <= i < max_retries ->
               usable (model prompt i) = None) ->
    retry_loop model prompt max_retries attempt remaining
    = (Llm.TROUBLE, 2 ^ (max_retries - 1) - 2 ^ attempt).
Proof.
  induction remaining as [|remaining IH]; intros attempt Hn Hpos Hnone;
    [lia|]. simpl.
  rewrite (Hnone attempt) by lia.
  destruct (Nat.eqb_spec attempt (max_retries - 1)) as [->|Hne].
  - f_equal. lia.
  - rewrite (IH (S attempt)); try lia.
    + f_equal.
      assert (2 ^ S attempt <= 2 ^ (max_retries - 1))
        by (apply Nat.pow_le_mono_r; lia).
      rewrite Nat.pow_succ_r' in *. lia.
    + intros i Hi. apply Hnone. lia.
Qed.

(** X20.  The blocking call with its retries, for a prompt that is not
    blank.  If attempt [i] (below [max_retries]) is the first to give a text
    that is not blank, the call returns that text stripped, after sleeping
    [2 ^ i - 1] seconds in all.  If no attempt gives one, it returns the
    apology after sleeping [2 ^ (max_retries - 1) - 1] seconds: the last
    failure is not followed by a sleep.  With [max_retries] 0 the model is
    not called and the call returns the unavailability message. *)
Theorem call_first_usable_attempt max_retries model prompt :
  nonempty (strip prompt) = true ->
  let p := Llm.truncate prompt in
  (forall i a,
     i < max_retries ->
     (forall j, j < i -> usable (model p j) = None) ->
     usable (model p i) = Some a ->
     call max_retries model prompt = (a, 2 ^ i - 1))
  /\ (0 < max_retries ->
      (forall j, j < max_retries -> usable (model p j) = None) ->
      call max_retries model prompt
      = (Llm.TROUBLE, 2 ^ (max_retries - 1) - 1))
  /\ (max_retries = 0 -> call max_retries model prompt = (UNAVAILABLE, 0)).
Proof.
  intros Hp p. unfold call.
  assert (Hb : negb (nonempty prompt) || negb (nonempty (strip prompt))
               = false).
  { rewrite Hp. destruct prompt; [discriminate Hp | reflexivity]. }
  rewrite Hb. fold p. split; [|split].
  - intros i a Hi Hnone Hsome.
    rewrite (retry_loop_first_usable model p max_retries i 0 max_retries a);
      try assumption; try lia.
    + reflexivity.
    + intros j Hj. apply Hnone. lia.
  - intros Hpos Hnone.
    rewrite retry_loop_none_usable; try assumption; try lia.
    + reflexivity.
    + intros j Hj. apply Hnone. lia.
  - by intros ->.
Qed.

Lemma call_first_usable_attempt_witness :
  call 3 third_time_lucky "What is the fee?" = ("The fee is 1000.", 3).
Proof.
  destruct (call_first_usable_attempt 3 third_time_lucky "What is the fee?"
              eq_refl) as [H _].
  apply (H 2 "The fee is 1000."); [lia | | reflexivity].
  intros [|[|j]] Hj; [reflexivity | reflexivity | lia].
Defined.

End LlmCallFacts.

(* ===================================================================== *)
(** * Further properties: context and sources of chatbot.py *)
(* ===================================================================== *)

Section ChatbotFacts.

Import Text Chatbot.

Local Arguments Nat.leb : simpl never.
Local Arguments Nat.ltb : simpl never.

Lemma context_parts_duplicate d docs2 : forall docs1 seen,
  In (content_key d) (seen ++ map content_key docs1) ->
  context_parts seen (docs1 ++ d :: docs2)
  = context_parts seen (docs1 ++ docs2).
Proof.
  induction docs1 as [|x docs1 IH]; intros seen Hin; simpl.
  - rewrite app_nil_r in Hin.
    replace (existsb (String.eqb (strip (page_content d))) seen) with true;
      [reflexivity|].
    symmetry. apply existsb_exists. exists (content_key d).
    split; [exact Hin | apply String.eqb_refl].
  - destruct (existsb (String.eqb (strip (page_content x))) seen) eqn:Ex.
    + apply IH. apply in_app_or in Hin as [Hs|[Hx|Hd]];
        apply in_or_app; [by left | | by right].
      left. apply existsb_exists in Ex as (y & Hy & Ey).
      apply String.eqb_eq in Ey. rewrite <- Hx. unfold content_key.
      by rewrite Ey.
    + f_equal. apply IH. apply in_app_or in Hin as [Hs|[Hx|Hd]];
        apply in_or_app; [left; by right | left; by left | by right].
Qed.

(** X21.  A retrieved document whose stripped text equals that of an
    earlier one adds nothing to the context, whatever its chunk type: the
    context is the one built without it. *)
Theorem duplicate_adds_no_context docs1 d docs2 :
  In (content_key d) (map content_key docs1) ->
  build_structured_context (docs1 ++ d :: docs2)
  = build_structured_context (docs1 ++ docs2).
Proof.
  intros Hin. unfold build_structured_context.
  by rewrite (context_parts_duplicate d docs2 docs1 []).
Qed.

Lemma duplicate_adds_no_context_witness :
  build_structured_context
    [hostel_doc;
     {| page_content := "  Hostel fees are listed per semester.  ";
        chunk_type := Some "table_complete"; title := None; url := None;
        source := None |};
     fees_doc]
  = build_structured_context [hostel_doc; fees_doc].
Proof.
  apply (duplicate_adds_no_context [hostel_doc] _ [fees_doc]).
  left. reflexivity.
Defined.

Lemma filter_insert_same v d l :
  score d = v ->
  List.filter (fun x => score x =? v) (insert_by_score d l)
  = d :: List.filter (fun x => score x =? v) l.
Proof.
  intros Hd. induction l as [|e l IH]; simpl.
  - by rewrite Hd, Nat.eqb_refl.
  - destruct (Nat.leb_spec (score e) (score d)) as [Hle|Hgt]; simpl.
    + by rewrite Hd, Nat.eqb_refl.
    + destruct (Nat.eqb_spec (score e) v); [lia | exact IH].
Qed.

Lemma filter_insert_other v d l :
  score d <> v ->
  List.filter (fun x => score x =? v) (insert_by_score d l)
  = List.filter (fun x => score x =? v) l.
Proof.
  intros Hd. induction l as [|e l IH]; simpl.
  - by destruct (Nat.eqb_spec (score d) v).
  - destruct (Nat.leb_spec (score e) (score d)); simpl.
    + by destruct (Nat.eqb_spec (score d) v).
    + by rewrite IH.
Qed.

(** X22.  The ranking of the sources is stable: among the documents of any
    one score, the order after sorting is the order in which they were
    retrieved. *)
Theorem sort_by_score_stable (docs : list document) (v : nat) :
  List.filter (fun d => score d =? v) (sort_by_score docs)
  = List.filter (fun d => score d =? v) docs.
Proof.
  induction docs as [|d docs IH]; simpl; [reflexivity|].
  destruct (Nat.eqb_spec (score d) v) as [Hd|Hd].
  - by rewrite filter_insert_same, IH.
  - by rewrite filter_insert_other, IH.
Qed.

Lemma source_lines_no_link docs : forall i,
  forallb no_link docs = true -> source_lines i docs = EmptyString.
Proof.
  induction docs as [|d docs IH]; intros i H; simpl in *; [reflexivity|].
  apply andb_true_iff in H as [Hd Hdocs].
  rewrite (IH (S i) Hdocs). unfold source_line.
  unfold no_link in Hd. apply negb_true_iff in Hd. by rewrite Hd.
Qed.

Lemma forallb_firstn {A} (p : A -> bool) n (l : list A) :
  forallb p l = true -> forallb p (firstn n l) = true.
Proof.
  revert n. induction l as [|x l IH]; intros [|n]; simpl; try reflexivity.
  intros H. apply andb_true_iff in H as [Hx Hl]. by rewrite Hx, IH.
Qed.

Lemma forallb_insert_by_score p d l :
  p d = true -> forallb p l = true ->
  forallb p (insert_by_score d l) = true.
Proof.
  intros Hd. induction l as [|e l IH]; simpl; [by rewrite Hd|].
  intros H. apply andb_true_iff in H as [He Hl].
  destruct (score e <=? score d); simpl; by rewrite ?Hd, ?He, ?Hl, ?IH.
Qed.

Lemma forallb_sort_by_score p l :
  forallb p l = true -> forallb p (sort_by_score l) = true.
Proof.
  induction l as [|d l IH]; simpl; [reflexivity|].
  intros H. apply andb_true_iff in H as [Hd Hl].
  apply forallb_insert_by_score; auto.
Qed.

(** X23.  When documents were retrieved but none of them has a usable URL
    (it is missing, empty or "Unknown"), the sources text is the header
    alone: a non-empty text with no line in it. *)
Theorem format_sources_without_links (docs : list document) :
  docs <> [] ->
  forallb no_link docs = true ->
  format_sources docs = sources_header
  /\ nonempty (format_sources docs) = true.
Proof.
  intros Hne Hall.
  assert (E : format_sources docs = sources_header).
  { unfold format_sources. destruct docs as [|d docs]; [contradiction|].
    rewrite source_lines_no_link; [reflexivity|].
    unfold selected_docs. by apply forallb_firstn, forallb_sort_by_score. }
  by rewrite E.
Qed.

Lemma format_sources_without_links_witness :
  format_sources [admissions_doc; untitled_doc] = sources_header
  /\ nonempty (format_sources [admissions_doc; untitled_doc]) = true.
Proof.
  apply format_sources_without_links; [discriminate | reflexivity].
Defined.

End ChatbotFacts.

(* ===================================================================== *)
(** * Further properties: the streamed and the blocking query *)
(* ===================================================================== *)

Section StreamingAgreement.

Import Text Chatbot.

Local Arguments Nat.leb : simpl never.
Local Arguments Nat.ltb : simpl never.

Variable rt : runtime.

(** Before the final event every event has empty sources and [done]
    unset. *)
Lemma stream_loop_shape question context docs chunks : forall acc,
  exists init final,
    stream_loop rt question context docs acc chunks = init ++ [final]
    /\ Forall (fun ev => sources ev = EmptyString /\ done ev = false) init
    /\ done final = true.
Proof.
  induction chunks as [|c chunks IH]; intros acc; simpl.
  - destruct (parse_and_format_response rt acc);
      eexists [], _; by repeat split.
  - destruct (parse_and_format_response rt (acc +:+ c)) as [p|];
      [|eexists [], _; by repeat split].
    destruct (IH (acc +:+ c)) as (init & final & -> & Hinit & Hfinal).
    eexists (_ :: init), final. split; [reflexivity|].
    split; [|exact Hfinal]. constructor; [by split | exact Hinit].
Qed.

Lemma query_streaming_shape question :
  exists init final,
    query_streaming rt question = init ++ [final]
    /\ Forall (fun ev => sources ev = EmptyString /\ done ev = false) init
    /\ done final = true.
Proof.
  unfold query_streaming. cbv zeta.
  repeat match goal with
    | |- exists _ _, (if ?b then _ else _) = _ /\ _ =>
        destruct b; [eexists [], _; by repeat split|]
    end.
  destruct (get_relevant_documents rt question) as [[|d docs]|];
    try (eexists [], _; by repeat split).
  destruct (filter_relevant_documents (top_k rt) (d :: docs));
    [eexists [], _; by repeat split|].
  match goal with
  | |- context [if ?b then final_event _ _ else _] =>
      destruct b; [eexists [], _; by repeat split|]
  end.
  apply stream_loop_shape.
Qed.

Lemma last_nonempty_app l x :
  ApiStream.last_nonempty (l ++ [x])
  = if nonempty x then x else ApiStream.last_nonempty l.
Proof. unfold ApiStream.last_nonempty. by rewrite fold_left_app. Qed.

Lemma last_nonempty_all_empty l :
  Forall (fun x => x = EmptyString) l ->
  ApiStream.last_nonempty l = EmptyString.
Proof.
  induction l as [|x l IH] using rev_ind; [reflexivity|].
  intros H. apply Forall_app in H as [Hl Hx].
  rewrite last_nonempty_app. inversion Hx; subst. simpl. by apply IH.
Qed.

(** X24.  The closing event of the HTTP stream.  After forwarding the
    chatbot's events the endpoint writes one more event: its sources are
    those of the chatbot's final event, and its content is the content of
    that final event, or, when that is empty, the last non-empty content
    streamed before it. *)
Theorem closing_event_repeats_final (question sid : string) :
  exists init final,
    query_streaming rt question = init ++ [final]
    /\ ApiStream.generate sid (query_streaming rt question)
       = map ApiStream.forward (query_streaming rt question)
         ++ [ {| ApiStream.content :=
                   if nonempty (content final) then content final
                   else ApiStream.last_nonempty (map content init);
                 ApiStream.sources := sources final;
                 ApiStream.done := true;
                 ApiStream.session_id := Some sid |} ].
Proof.
  destruct (query_streaming_shape question)
    as (init & final & E & Hinit & _).
  exists init, final. split; [exact E|].
  unfold ApiStream.generate. rewrite E. f_equal. f_equal.
  rewrite !map_app. simpl. rewrite !last_nonempty_app.
  f_equal.
  destruct (nonempty (sources final)) eqn:Hs; [reflexivity|].
  rewrite last_nonempty_all_empty.
  - by destruct (sources final).
  - apply Forall_map. eapply List.Forall_impl; [|exact Hinit].
    by intros ev [Hev _].
Qed.

Variable llm : string -> string.



End StreamingAgreement.

Section StreamingAgreementExample.

Import Chatbot.


(** The formatter of this runtime does raise, on a JSON block that holds
    a list; the stream above never accumulates such a text. *)
Example steady_runtime_raises_on_list :
  parse_and_format_response steady_runtime
    "<<TABLE_JSON>>[1]<<END_TABLE_JSON>>"
  = None.
Proof. reflexivity. Qed.


End StreamingAgreementExample.

(* ===================================================================== *)
(** * Further properties: table blocks in the formatter *)
(* ===================================================================== *)

Section SpliceFacts.

Import Text Formatter.

Lemma drop_length_append a b : drop (String.length a) (a +:+ b) = b.
Proof.
  induction a as [|c a IH]; [by destruct b|].
  rewrite append_cons. exact IH.
Qed.

Lemma take_length_append a b : take (String.length a) (a +:+ b) = a.
Proof.
  induction a as [|c a IH]; [by destruct b|].
  rewrite append_cons. simpl. by rewrite IH.
Qed.

Lemma drop_add n : forall m s, drop (n + m) s = drop m (drop n s).
Proof.
  induction n as [|n IH]; intros m s; [reflexivity|].
  destruct s as [|c s]; simpl; [by destruct m | apply IH].
Qed.

Lemma find_head p s : startswith p s = true -> find p s = Some 0.
Proof. destruct s; simpl; by intros ->. Qed.

Lemma prefix_nil s : String.prefix EmptyString s = true.
Proof. by destruct s. Qed.

Lemma misses_at_tail p c a s :
  misses_at p (String c a) s -> misses_at p a s.
Proof.
  intros H i Hi. apply (H (S i)). simpl. lia.
Qed.

Lemma find_through p a : forall s,
  misses_at p a s ->
  find p (a +:+ s) = option_map (Nat.add (String.length a)) (find p s).
Proof.
  induction a as [|c a IH]; intros s H.
  - change (EmptyString +:+ s) with s. by destruct (find p s).
  - rewrite append_cons, find_cons.
    pose proof (H 0 ltac:(simpl; lia)) as H0.
    rewrite append_cons in H0.
    change (startswith p (String c (a +:+ s)) = false) in H0. rewrite H0.
    rewrite (IH s (misses_at_tail p c a s H)).
    by destruct (find p s).
Qed.

Lemma replace_spans_through p span a : forall s,
  (forall t, startswith p t = false -> span t = None) ->
  misses_at p a s ->
  replace_spans span 0 (a +:+ s) = a +:+ replace_spans span 0 s.
Proof.
  induction a as [|c a IH]; intros s Hspan H; [reflexivity|].
  rewrite !append_cons. simpl.
  pose proof (H 0 ltac:(simpl; lia)) as H0.
  rewrite append_cons in H0.
  change (startswith p (String c (a +:+ s)) = false) in H0.
  rewrite (Hspan _ H0).
  by rewrite (IH s Hspan (misses_at_tail p c a s H)).
Qed.

Lemma replace_spans_skip span : forall s k,
  replace_spans span k s = replace_spans span 0 (drop k s).
Proof.
  induction s as [|c s IH]; intros [|k]; try reflexivity.
  simpl. apply IH.
Qed.

Lemma replace_spans_hit span c s n r :
  span (String c s) = Some (S n, r) ->
  replace_spans span 0 (String c s)
  = r +:+ replace_spans span 0 (drop (S n) (String c s)).
Proof.
  intros H. simpl. rewrite H. simpl. by rewrite replace_spans_skip.
Qed.

Lemma startswith_cons a p c s :
  startswith (String a p) (String c s)
  = if ascii_dec a c then startswith p s else false.
Proof. reflexivity. Qed.

Lemma plain_misses p' a s :
  lacks angle a -> misses_at (String "<" p') a s.
Proof.
  induction a as [|c a IH]; intros H i Hi; [simpl in Hi; lia|].
  apply lacks_cons in H as [Hh Ht].
  destruct i as [|i].
  - rewrite append_cons. change (drop 0 ?x) with x.
    unfold angle in Hh. rewrite startswith_cons in Hh |- *.
    destruct (ascii_dec "<" c); [|reflexivity].
    unfold startswith in Hh. by rewrite prefix_nil in Hh.
  - rewrite append_cons. change (drop (S i) (String c ?x)) with (drop i x).
    apply (IH Ht). simpl in Hi. lia.
Qed.

(** The four tags do not overlap one another. *)
Lemma tags_miss s :
  misses_at TABLE_JSON MARKDOWN_TABLE s
  /\ misses_at TABLE_JSON END_MARKDOWN_TABLE s
  /\ misses_at MARKDOWN_TABLE TABLE_JSON s
  /\ misses_at MARKDOWN_TABLE END_TABLE_JSON s
  /\ misses_at END_MARKDOWN_TABLE TABLE_JSON s
  /\ misses_at END_MARKDOWN_TABLE END_TABLE_JSON s.
Proof.
  repeat split; intros i Hi;
    do 23 (destruct i as [|i];
           [first [reflexivity | cbv in Hi; lia]|]);
    cbv in Hi; lia.
Qed.

Lemma replace_spans_hit_at span s n r :
  0 < n -> span s = Some (n, r) -> s <> EmptyString ->
  replace_spans span 0 s = r +:+ replace_spans span 0 (drop n s).
Proof.
  intros Hn H Hs. destruct s as [|c s]; [contradiction|].
  destruct n as [|n]; [lia|]. by apply replace_spans_hit.
Qed.

Lemma block_assoc a b c post :
  a +:+ b +:+ c +:+ post = (a +:+ b +:+ c) +:+ post.
Proof. by rewrite !append_assoc. Qed.

Lemma block_length a b c :
  String.length (a +:+ b +:+ c)
  = String.length a + String.length b + String.length c.
Proof. rewrite !length_append. lia. Qed.

Lemma find_closing c' body post :
  lacks angle body ->
  find (String "<" c') (body +:+ String "<" c' +:+ post)
  = Some (String.length body).
Proof.
  intros Hb. rewrite (find_through _ body) by apply plain_misses, Hb.
  rewrite find_head by apply prefix_append.
  cbn [option_map]. f_equal. lia.
Qed.

Lemma lazy_span_block o' c' body post :
  lacks angle body ->
  lazy_span (String "<" o') (String "<" c')
    (String "<" o' +:+ body +:+ String "<" c' +:+ post)
  = Some (String.length (String "<" o' +:+ body +:+ String "<" c')).
Proof.
  intros Hb. unfold lazy_span, startswith.
  rewrite prefix_append, drop_length_append, (find_closing c' body post Hb).
  f_equal. rewrite block_length. reflexivity.
Qed.

Lemma search_group_block o' c' pre body post :
  lacks angle pre -> lacks angle body ->
  search_group (String "<" o') (String "<" c')
    (pre +:+ String "<" o' +:+ body +:+ String "<" c' +:+ post)
  = Some body.
Proof.
  intros Hp Hb. unfold search_group.
  rewrite (find_through _ pre) by apply plain_misses, Hp.
  rewrite find_head by apply prefix_append.
  cbn [option_map]. rewrite Nat.add_0_r.
  rewrite drop_add, !drop_length_append, (find_closing c' body post Hb).
  by rewrite take_length_append.
Qed.

Lemma sub_lazy_block o' c' f pre body post :
  lacks angle pre -> lacks angle body -> lacks (String "<" o') post ->
  sub_lazy (String "<" o') (String "<" c') f
    (pre +:+ String "<" o' +:+ body +:+ String "<" c' +:+ post)
  = pre +:+ f (String "<" o' +:+ body +:+ String "<" c') +:+ post.
Proof.
  intros Hp Hb Hpost. unfold sub_lazy.
  set (span := fun t => match lazy_span _ _ t with
                        | Some n => Some (n, f (take n t))
                        | None => None
                        end).
  assert (Hspan : forall t, startswith (String "<" o') t = false ->
                            span t = None).
  { intros t Ht. unfold span, lazy_span. by rewrite Ht. }
  rewrite (replace_spans_through (String "<" o') span pre _ Hspan)
    by apply plain_misses, Hp.
  f_equal.
  rewrite (replace_spans_hit_at span _
             (String.length (String "<" o' +:+ body +:+ String "<" c'))
             (f (String "<" o' +:+ body +:+ String "<" c'))).
  - rewrite block_assoc, drop_length_append.
    by rewrite (replace_spans_lacks (String "<" o') span post Hspan Hpost).
  - rewrite block_length. simpl. lia.
  - unfold span. rewrite (lazy_span_block o' c' body post Hb).
    by rewrite block_assoc, take_length_append.
  - rewrite append_cons. discriminate.
Qed.

(** Where a tag occurs in neither the plain parts nor the other tags of a
    block, the text holds no occurrence of it. *)
Lemma replace_spans_block_untouched p' span pre a body b post :
  (forall t, startswith (String "<" p') t = false -> span t = None) ->
  lacks angle pre -> lacks angle body -> lacks (String "<" p') post ->
  (forall s, misses_at (String "<" p') a s) ->
  (forall s, misses_at (String "<" p') b s) ->
  replace_spans span 0 (pre +:+ a +:+ body +:+ b +:+ post)
  = pre +:+ a +:+ body +:+ b +:+ post.
Proof.
  intros Hspan Hp Hb Hpost Ha Hbb.
  rewrite (replace_spans_through _ span pre _ Hspan) by apply plain_misses, Hp.
  rewrite (replace_spans_through _ span a _ Hspan) by apply Ha.
  rewrite (replace_spans_through _ span body _ Hspan)
    by apply plain_misses, Hb.
  rewrite (replace_spans_through _ span b _ Hspan) by apply Hbb.
  by rewrite (replace_spans_lacks _ span post Hspan Hpost).
Qed.

Lemma find_block_untouched p' pre a body b post :
  lacks angle pre -> lacks angle body -> lacks (String "<" p') post ->
  (forall s, misses_at (String "<" p') a s) ->
  (forall s, misses_at (String "<" p') b s) ->
  find (String "<" p') (pre +:+ a +:+ body +:+ b +:+ post) = None.
Proof.
  intros Hp Hb Hpost Ha Hbb.
  rewrite (find_through _ pre) by apply plain_misses, Hp.
  rewrite (find_through _ a) by apply Ha.
  rewrite (find_through _ body) by apply plain_misses, Hb.
  rewrite (find_through _ b) by apply Hbb.
  unfold lacks in Hpost. by rewrite Hpost.
Qed.

End SpliceFacts.

Section SpliceTheorems.

Import Text Formatter.

Variable json_loads : string -> loaded.
Variable compile_template : string -> option (string -> string).

Abbreviation format_response :=
  (parse_and_format_response json_loads compile_template).

(** X26.  A Markdown table block in otherwise plain text.  When the text
    before the block and the table hold no [<], the text after it holds no
    [<<], and the stripped table holds no backslash, the formatter removes
    the two tags, keeps the table stripped of surrounding white space in
    its place, and strips the result. *)
Theorem format_markdown_block (pre table post : string) :
  lacks angle pre -> lacks angle table -> lacks opener post ->
  contains backslash (strip table) = false ->
  format_response
    (pre +:+ MARKDOWN_TABLE +:+ table +:+ END_MARKDOWN_TABLE +:+ post)
  = Some (strip (pre +:+ strip table +:+ post)).
Proof.
  intros Hp Ht Hpost Hbs. unfold parse_and_format_response.
  change MARKDOWN_TABLE with (String "<" "<MARKDOWN_TABLE>>").
  change END_MARKDOWN_TABLE with (String "<" "<END_MARKDOWN_TABLE>>").
  rewrite (search_group_block _ _ pre table post Hp Ht).
  unfold template. rewrite Hbs.
  f_equal. f_equal.
  assert (Hclean :
    sub_lazy TABLE_JSON END_TABLE_JSON (fun _ => EmptyString)
      (pre +:+ String "<" "<MARKDOWN_TABLE>>" +:+ table
       +:+ String "<" "<END_MARKDOWN_TABLE>>" +:+ post)
    = pre +:+ String "<" "<MARKDOWN_TABLE>>" +:+ table
      +:+ String "<" "<END_MARKDOWN_TABLE>>" +:+ post).
  { unfold sub_lazy.
    apply (replace_spans_block_untouched "<TABLE_JSON>>");
      try assumption.
    - intros t Ht'. unfold lazy_span.
      change TABLE_JSON with (String "<" "<TABLE_JSON>>"). by rewrite Ht'.
    - by apply (tag_lacks "TABLE_JSON>>").
    - intros s. apply (tags_miss s).
    - intros s. apply (tags_miss s). }
  rewrite Hclean.
  rewrite (sub_lazy_block _ _ _ pre table post Hp Ht); [reflexivity|].
  by apply (tag_lacks "MARKDOWN_TABLE>>").
Qed.

(** X27.  A JSON table block in otherwise plain text, under the same
    conditions on the surrounding text.  If the text between the tags
    decodes to a table (whose rendering holds no backslash), the block is
    replaced by the rendered Markdown table; if it does not decode, the
    whole block is dropped; if it decodes to something that is not a table,
    the formatter raises. *)
Theorem format_json_block (pre json post : string) :
  lacks angle pre -> lacks angle json -> lacks opener post ->
  let raw := pre +:+ TABLE_JSON +:+ json +:+ END_TABLE_JSON +:+ post in
  (forall headers rows,
     json_loads (strip json) = TableData headers rows ->
     contains backslash (render_table headers rows) = false ->
     format_response raw
     = Some (strip (pre +:+ render_table headers rows +:+ post)))
  /\ (json_loads (strip json) = JSONDecodeError ->
      format_response raw = Some (strip (pre +:+ post)))
  /\ (json_loads (strip json) = OtherError -> format_response raw = None).
Proof.
  intros Hp Hj Hpost raw. subst raw. unfold parse_and_format_response.
  change TABLE_JSON with (String "<" "<TABLE_JSON>>").
  change END_TABLE_JSON with (String "<" "<END_TABLE_JSON>>").
  assert (Hmd : search_group MARKDOWN_TABLE END_MARKDOWN_TABLE
                  (pre +:+ String "<" "<TABLE_JSON>>" +:+ json
                   +:+ String "<" "<END_TABLE_JSON>>" +:+ post) = None).
  { apply search_group_lacks.
    apply (find_block_untouched "<MARKDOWN_TABLE>>"); try assumption.
    - by apply (tag_lacks "MARKDOWN_TABLE>>").
    - intros s. apply (tags_miss s).
    - intros s. apply (tags_miss s). }
  rewrite Hmd.
  rewrite (search_group_block _ _ pre json post Hp Hj).
  assert (Hjson : lacks (String "<" "<TABLE_JSON>>") post)
    by apply (tag_lacks "TABLE_JSON>>" post Hpost).
  split; [|split].
  - intros headers rows -> Hbs. unfold template. rewrite Hbs.
    by rewrite (sub_lazy_block _ _ _ pre json post Hp Hj Hjson).
  - intros ->. f_equal. unfold remove_leftover_markers. cbv zeta.
    unfold replace.
    rewrite (replace_spans_block_untouched "<MARKDOWN_TABLE>>");
      try assumption; cycle 1.
    { intros t Ht. change MARKDOWN_TABLE with (String "<" "<MARKDOWN_TABLE>>").
      by rewrite Ht. }
    { by apply (tag_lacks "MARKDOWN_TABLE>>"). }
    { intros s. apply (tags_miss s). }
    { intros s. apply (tags_miss s). }
    rewrite (replace_spans_block_untouched "<END_MARKDOWN_TABLE>>");
      try assumption; cycle 1.
    { intros t Ht.
      change END_MARKDOWN_TABLE with (String "<" "<END_MARKDOWN_TABLE>>").
      by rewrite Ht. }
    { by apply (tag_lacks "END_MARKDOWN_TABLE>>"). }
    { intros s. apply (tags_miss s). }
    { intros s. apply (tags_miss s). }
    change TABLE_JSON with (String "<" "<TABLE_JSON>>").
    change END_TABLE_JSON with (String "<" "<END_TABLE_JSON>>").
    rewrite (sub_lazy_block _ _ _ pre json post Hp Hj Hjson).
    change (EmptyString +:+ post) with post.
    pose proof (strip_markers_lacks post Hpost) as Hrest.
    unfold strip_markers in Hrest |- *.
    rewrite (replace_spans_through opener _ pre).
    + by rewrite Hrest.
    + intros t Ht. unfold marker_span. fold opener. by rewrite Ht.
    + apply (plain_misses "<"), Hp.
  - by intros ->.
Qed.

End SpliceTheorems.

Section SpliceExamples.

Import Text Formatter.

Lemma format_markdown_block_witness :
  parse_and_format_response (fun _ => JSONDecodeError) (fun _ => None)
    "Fees: <<MARKDOWN_TABLE>> | a | b | <<END_MARKDOWN_TABLE>> as of 2025. "
  = Some "Fees: | a | b | as of 2025.".
Proof.
  apply (format_markdown_block (fun _ => JSONDecodeError) (fun _ => None)
           "Fees: " " | a | b | " " as of 2025. ");
    reflexivity.
Defined.

Lemma format_json_block_witness :
  parse_and_format_response
    (fun _ => TableData ["Course"; "Fee"] [[Some "BTech"; None]])
    (fun _ => None)
    "Fees: <<TABLE_JSON>> {...} <<END_TABLE_JSON>> as of 2025. "
  = Some (strip ("Fees: "
                 +:+ render_table ["Course"; "Fee"] [[Some "BTech"; None]]
                 +:+ " as of 2025. ")).
Proof.
  destruct (format_json_block
              (fun _ => TableData ["Course"; "Fee"] [[Some "BTech"; None]])
              (fun _ => None) "Fees: " " {...} " " as of 2025. "
              eq_refl eq_refl eq_refl) as [H _].
  apply H; reflexivity.
Defined.

End SpliceExamples.
